(** * NBA game-log feed: a model of [generate_master_feed.py]

    The script discovers today's active rosters, pages through the
    standard and advanced statistics of those players, joins the two
    record lists per (player, game), derives a few composite columns,
    sorts the rows and writes them as CSV.

    The development has four parts:
    - [Py]: the Python built-ins the script relies on ([int], [float],
      [round], true division, [str.split], string comparison), over
      binary64 floating point numbers;
    - the data model (records of the upstream API) and the merger;
    - the network side: requests, responses, the pagination loops, the
      roster discovery and [main];
    - the properties.

    Modelling conventions.
    - A Python [str] is a [string]; every character is a code point below
      256, so slices, comparisons and character classes are those of Python
      on such text.
    - A Python [float] is a [spec_float] at precision 53 and maximal
      exponent 1024 (IEEE binary64, a single NaN).
    - The records the API delivers are typed as section 3 of the design
      describes them: identifiers and counting statistics are integers,
      [min] is a string or null, ratings are numbers or null.  A key read
      with [d.get] may be absent or null; a key read with [d[k]] is present.
    - [print] is not modelled, and neither is a failure of the console or
      of the disk: a [print] or [to_csv] that raises is outside the model.
    - A Python [set] is a [gset]; it is walked in the order of [elements],
      which is some fixed order without repetition, not necessarily the
      interpreter's.  No property depends on that order. *)

From Stdlib Require Import ZArith String Ascii List Bool Lia.
From Stdlib Require Import Floats.SpecFloat.
From Stdlib Require Import Sorting.Sorted Sorting.Permutation.
From stdpp Require Import gmap strings list.

Local Open Scope Z_scope.

(** ** Exceptions *)

Inductive exn : Type :=
| ValueError
| OverflowError
| ZeroDivisionError
| IndexError
| KeyError (key : string).

(** A computation that returns or raises. *)
Definition raises (A : Type) : Type := (exn + A)%type.

Definition ret {A} (a : A) : raises A := inr a.
Definition raise {A} (e : exn) : raises A := inl e.

Definition bind {A B} (m : raises A) (k : A -> raises B) : raises B :=
  match m with
  | inl e => inl e
  | inr a => k a
  end.

Declare Scope raises_scope.
Delimit Scope raises_scope with raises.
Notation "'let!' x ':=' m 'in' k" := (bind m (fun x => k))
  (at level 10, x name, m at level 100, k at level 200) : raises_scope.

(** [try: e except: d] with a bare [except]. *)
Definition try_except {A} (m : raises A) (d : A) : A :=
  match m with
  | inl _ => d
  | inr a => a
  end.

(** ** Python built-ins *)

Module Py.

(** *** binary64 *)

Definition prec : Z := 53.
Definition emax : Z := 1024.

Definition float64 : Type := spec_float.

Definition fadd : float64 -> float64 -> float64 := SFadd prec emax.
Definition fmul : float64 -> float64 -> float64 := SFmul prec emax.

(** The float nearest to [num / den] for positive [num] and [den], with
    sign [neg]; ties go to the even mantissa, too large a quotient is an
    infinity. *)
Definition nearest_ratio (neg : bool) (num den : positive) : float64 :=
  let '(q, e, l) := SFdiv_core_binary prec emax (Zpos num) 0 (Zpos den) 0 in
  binary_round_aux prec emax neg q e l.

(** The float nearest to the integer [z]. *)
Definition nearest_int (z : Z) : float64 := binary_normalize prec emax z 0 false.

(** [float(z)] as the interpreter applies it to the int operand of a mixed
    [int + float]: OverflowError when [z] is beyond the largest float. *)
Definition float_of_int (z : Z) : raises float64 :=
  match nearest_int z with
  | S754_infinity _ => raise OverflowError
  | f => ret f
  end.

(** [a / b] on two ints: the correctly rounded quotient. *)
Definition int_truediv (a b : Z) : raises float64 :=
  match a, b with
  | _, Z0 => raise ZeroDivisionError
  | Z0, _ => ret (S754_zero (b <? 0))
  | Zpos p, Zpos q =>
      match nearest_ratio false p q with
      | S754_infinity _ => raise OverflowError
      | f => ret f
      end
  | Zneg p, Zneg q =>
      match nearest_ratio false p q with
      | S754_infinity _ => raise OverflowError
      | f => ret f
      end
  | Zpos p, Zneg q | Zneg p, Zpos q =>
      match nearest_ratio true p q with
      | S754_infinity _ => raise OverflowError
      | f => ret f
      end
  end.

(** [z + f] with an int on the left. *)
Definition int_add_float (z : Z) (f : float64) : raises float64 :=
  (let! x := float_of_int z in ret (fadd x f))%raises.

(** The integer nearest to [n / d] ([0 <= n], [0 < d]), ties to even. *)
Definition round_half_even (n d : Z) : Z :=
  let q := n / d in
  match Z.compare (2 * (n mod d)) d with
  | Lt => q
  | Eq => if Z.even q then q else q + 1
  | Gt => q + 1
  end.

(** [round(x, ndigits)] on a float, [ndigits >= 0]: the exact value of [x]
    is rounded half-even to [ndigits] decimals and the decimal is read back
    as the nearest float; infinities and NaN round to themselves. *)
Definition round_float (x : float64) (ndigits : nat) : float64 :=
  match x with
  | S754_finite s m e =>
      let p := 10 ^ Z.of_nat ndigits in
      let n := if 0 <=? e then Zpos m * 2 ^ e * p
               else round_half_even (Zpos m * p) (2 ^ (- e)) in
      match n with
      | Zpos n' => nearest_ratio s n' (Z.to_pos p)
      | _ => S754_zero s
      end
  | _ => x
  end.

(** *** Numbers: an int or a float *)

Inductive num : Type :=
| Int (z : Z)
| Float (f : float64).

(** Truth value of a number: zero is false, NaN is true. *)
Definition num_truthy (x : num) : bool :=
  match x with
  | Int z => negb (z =? 0)
  | Float (S754_zero _) => false
  | Float _ => true
  end.

(** [x * k] for an int constant [k] whose float is exact. *)
Definition num_mul_int (x : num) (k : Z) : num :=
  match x with
  | Int z => Int (z * k)
  | Float f => Float (fmul f (nearest_int k))
  end.

(** [round(x, ndigits)], [ndigits >= 0]: an int is returned unchanged. *)
Definition round (x : num) (ndigits : nat) : num :=
  match x with
  | Int z => Int z
  | Float f => Float (round_float f ndigits)
  end.

(** *** Characters and strings *)

Definition code (c : ascii) : Z := Z.of_N (N_of_ascii c).

(** White space as [int] and [float] see it in a [str]. *)
Definition is_space (c : ascii) : bool :=
  let n := code c in
  ((9 <=? n) && (n <=? 13)) || (n =? 32) || (n =? 133) || (n =? 160).

Definition is_digit (c : ascii) : bool :=
  let n := code c in (48 <=? n) && (n <=? 57).

Definition digit_val (c : ascii) : Z := code c - 48.

Definition lower (c : ascii) : ascii :=
  let n := code c in
  if (65 <=? n) && (n <=? 90) then ascii_of_N (Z.to_N (n + 32)) else c.

Fixpoint lstrip (cs : list ascii) : list ascii :=
  match cs with
  | c :: r => if is_space c then lstrip r else cs
  | [] => []
  end.

Definition strip (cs : list ascii) : list ascii :=
  rev (lstrip (rev (lstrip cs))).

(** An optional sign in front: [(negative, rest)]. *)
Definition split_sign (cs : list ascii) : bool * list ascii :=
  match cs with
  | "+"%char :: r => (false, r)
  | "-"%char :: r => (true, r)
  | _ => (false, cs)
  end.

(** Underscores may only stand between two digits; they are dropped.
    [prev_digit] tells whether the previous character was a digit,
    [after_us] whether it was an underscore. *)
Fixpoint drop_underscores (prev_digit after_us : bool) (cs : list ascii)
  : option (list ascii) :=
  match cs with
  | [] => if after_us then None else Some []
  | c :: r =>
      if Ascii.eqb c "_" then
        if prev_digit then drop_underscores false true r else None
      else if after_us && negb (is_digit c) then None
      else option_map (cons c) (drop_underscores (is_digit c) false r)
  end.

(** The value of a run of decimal digits. *)
Definition digits_val (ds : list ascii) : Z :=
  fold_left (fun acc d => 10 * acc + digit_val d) ds 0.

Definition int_max_str_digits : nat := 4300.

(** [int(s)], base ten. *)
Definition int (s : string) : raises Z :=
  let '(neg, body) := split_sign (strip (list_ascii_of_string s)) in
  match drop_underscores false false body with
  | Some (d :: ds) =>
      if forallb is_digit (d :: ds) then
        if (int_max_str_digits <? length (d :: ds))%nat then raise ValueError
        else ret (if neg then - digits_val (d :: ds) else digits_val (d :: ds))
      else raise ValueError
  | _ => raise ValueError
  end.

(** The longest prefix of digits and what follows. *)
Fixpoint span_digits (cs : list ascii) : list ascii * list ascii :=
  match cs with
  | c :: r =>
      if is_digit c then let '(ds, rest) := span_digits r in (c :: ds, rest)
      else ([], cs)
  | [] => ([], [])
  end.

(** A decimal literal [digits [. digits] [e [sign] digits]] with a digit in
    the mantissa: the integer mantissa and the power of ten. *)
Definition parse_decimal (cs : list ascii) : option (Z * Z) :=
  let '(ip, r1) := span_digits cs in
  let '(fp, r2) :=
    match r1 with
    | "."%char :: r => span_digits r
    | _ => ([], r1)
    end in
  match ip ++ fp with
  | [] => None
  | ds =>
      let shift := - Z.of_nat (length fp) in
      match r2 with
      | [] => Some (digits_val ds, shift)
      | c :: r =>
          if Ascii.eqb (lower c) "e" then
            let '(eneg, r') := split_sign r in
            match span_digits r' with
            | (e :: es, []) =>
                let x := digits_val (e :: es) in
                Some (digits_val ds, shift + (if eneg then - x else x))
            | _ => None
            end
          else None
      end
  end.

(** The float nearest to [m * 10 ^ k], [0 <= m]. *)
Definition decimal_to_float (neg : bool) (m k : Z) : float64 :=
  match m with
  | Zpos p =>
      if 0 <=? k then binary_normalize prec emax ((if neg then Zneg p else Zpos p) * 10 ^ k) 0 false
      else nearest_ratio neg p (Z.to_pos (10 ^ (- k)))
  | _ => S754_zero neg
  end.

(** [float(s)]. *)
Definition float (s : string) : raises float64 :=
  match drop_underscores false false (strip (list_ascii_of_string s)) with
  | None => raise ValueError
  | Some cs =>
      let '(neg, body) := split_sign cs in
      let word := string_of_list_ascii (map lower body) in
      if String.eqb word "inf" || String.eqb word "infinity" then ret (S754_infinity neg)
      else if String.eqb word "nan" then ret S754_nan
      else match parse_decimal body with
           | Some (m, k) => ret (decimal_to_float neg m k)
           | None => raise ValueError
           end
  end.

(** [sep in s] for a one-character [sep]. *)
Definition contains (sep : ascii) (s : string) : bool :=
  existsb (Ascii.eqb sep) (list_ascii_of_string s).

(** [s.split(sep)] for a one-character [sep]. *)
Fixpoint split (sep : ascii) (s : string) : list string :=
  match s with
  | EmptyString => [EmptyString]
  | String c r =>
      if Ascii.eqb c sep then EmptyString :: split sep r
      else match split sep r with
           | seg :: segs => String c seg :: segs
           | [] => [String c EmptyString]
           end
  end.

(** [l[i]] on a list. *)
Definition item {A} (l : list A) (i : nat) : raises A :=
  match l !! i with
  | Some a => ret a
  | None => raise IndexError
  end.

(** [s[:n]]. *)
Fixpoint prefix (n : nat) (s : string) : string :=
  match n, s with
  | S n', String c r => String c (prefix n' r)
  | _, _ => EmptyString
  end.

(** [a > b] on strings: code points, left to right. *)
Definition str_gt (a b : string) : bool :=
  match String.compare a b with
  | Gt => true
  | _ => false
  end.

Definition str_le (a b : string) : bool := negb (str_gt a b).

End Py.

Import Py (float64, num).

(** ** Data model *)

(** A key of a JSON object that is read with [d.get]: it may be absent,
    hold [null], or hold a value. *)
Inductive field (A : Type) : Type :=
| Absent
| Null
| Present (a : A).
Arguments Absent {A}.
Arguments Null {A}.
Arguments Present {A} a.

(** [d.get(k)]: [None] for an absent key and for [null]. *)
Definition get {A} (f : field A) : option A :=
  match f with
  | Present a => Some a
  | _ => None
  end.

(** [d.get(k, default)]: the default only replaces an absent key. *)
Definition get_default {A} (f : field A) (default : A) : option A :=
  match f with
  | Absent => Some default
  | Null => None
  | Present a => Some a
  end.

(** [x or d] where [x] is an int or [None]. *)
Definition int_or (x : option Z) (d : Z) : Z :=
  match x with
  | Some z => if z =? 0 then d else z
  | None => d
  end.

(** [x or d] where [x] is a number or [None]. *)
Definition num_or (x : option num) (d : num) : num :=
  match x with
  | Some n => if Py.num_truthy n then n else d
  | None => d
  end.

Module Player.
Record t : Type := { id : Z; first_name : string; last_name : string }.
End Player.

Module Team.
Record t : Type := { id : Z; abbreviation : string }.
End Team.

Module Game.
Record t : Type :=
  { id : Z; date : string; home_team_id : Z; visitor_team_id : Z }.
End Game.

(** A standard stat line. *)
Module Std.
Record t : Type :=
  { player : Player.t;
    team : Team.t;
    game : Game.t;
    min : option string;          (* [None] is JSON null *)
    pts : field Z;
    reb : field Z;
    ast : field Z;
    stl : field Z;
    blk : field Z;
    turnover : field Z }.
End Std.

(** An advanced stat line; [player_id] is [a['player']['id']] and [game_id]
  is [a['game']['id']]. *)
Module Adv.
Record t : Type :=
  { player_id : Z;
    game_id : Z;
    usage_percentage : field num;
    defensive_rating : field num;
    net_rating : field num;
    pace : field num }.
End Adv.

(** An output row, one field per column. *)
Module Row.
Record t : Type :=
  { Date : string;
    Season : Z;
    Player : string;
    Team : string;
    Loc : string;
    Opp_ID : Z;
    MIN : float64;
    PTS : Z;
    REB : Z;
    AST : Z;
    STL : Z;
    BLK : Z;
    TOV : Z;
    PRA : Z;
    PR : Z;
    PA : Z;
    Stocks : Z;
    Usage : num;
    DefRtg : option num;
    NetRtg : option num;
    Pace : option num }.
End Row.

(** ** The merger *)

Definition OUTPUT_FILE : string := "nba_game_logs_2024_25.csv".

(** The dict of advanced lines: keys are pairs (player id, game id). *)
Definition adv_key (a : Adv.t) : Z * Z := (Adv.player_id a, Adv.game_id a).

Definition build_adv_map (adv_logs : list Adv.t) : gmap (Z * Z) Adv.t :=
  foldl (fun adv_map a => <[adv_key a := a]> adv_map) ∅ adv_logs.

(** [adv.get(k)] where [adv] is a line of the map or the default [{}],
    written [None]. *)
Definition adv_get (adv : option Adv.t) (k : Adv.t -> field num) : option num :=
  match adv with
  | Some a => get (k a)
  | None => None
  end.

(** The values of [min] that mark a player who did not play. *)
Definition dnp_sentinels : list (option string) :=
  [None; Some "0"; Some "00"; Some "0:00"; Some ""]%string.

Definition is_dnp (m : option string) : bool := bool_decide (m ∈ dnp_sentinels).

(** [str(s['min'])]. *)
Definition str_of_min (m : option string) : string :=
  match m with
  | Some s => s
  | None => "None"
  end.

(** The body of the [try]. *)
Definition parse_min_try (m : string) : raises float64 :=
  (if Py.contains ":" m then
     let! s0 := Py.item (Py.split ":" m) 0 in
     let! a := Py.int s0 in
     let! s1 := Py.item (Py.split ":" m) 1 in
     let! b := Py.int s1 in
     let! q := Py.int_truediv b 60 in
     Py.int_add_float a q
   else Py.float m)%raises.

Definition parse_min (m : string) : float64 :=
  try_except (parse_min_try m) (S754_zero false).

Definition season_of (date : string) : Z :=
  if Py.str_gt date "2024-09-01" then 2025 else 2024.

(** One turn of the loop over [std_logs]: [None] is [continue], [Some row]
    is the row appended. *)
Definition make_row (adv_map : gmap (Z * Z) Adv.t) (s : Std.t) : option Row.t :=
  if is_dnp (Std.min s) then None
  else
    let m := str_of_min (Std.min s) in
    let mins := parse_min m in
    let pid := Player.id (Std.player s) in
    let gid := Game.id (Std.game s) in
    let adv := adv_map !! (pid, gid) in
    let game := Std.game s in
    let team := Std.team s in
    let is_home := Team.id team =? Game.home_team_id game in
    let opp_id := if is_home then Game.visitor_team_id game
                  else Game.home_team_id game in
    let pts := int_or (get_default (Std.pts s) 0) 0 in
    let reb := int_or (get_default (Std.reb s) 0) 0 in
    let ast := int_or (get_default (Std.ast s) 0) 0 in
    Some
      {| Row.Date := Py.prefix 10 (Game.date game);
         Row.Season := season_of (Game.date game);
         Row.Player := Player.first_name (Std.player s) +:+ " "
                       +:+ Player.last_name (Std.player s);
         Row.Team := Team.abbreviation team;
         Row.Loc := if is_home then "Home" else "Away";
         Row.Opp_ID := opp_id;
         Row.MIN := Py.round_float mins 2;
         Row.PTS := pts;
         Row.REB := reb;
         Row.AST := ast;
         Row.STL := int_or (get_default (Std.stl s) 0) 0;
         Row.BLK := int_or (get_default (Std.blk s) 0) 0;
         Row.TOV := int_or (get_default (Std.turnover s) 0) 0;
         Row.PRA := pts + reb + ast;
         Row.PR := pts + reb;
         Row.PA := pts + ast;
         Row.Stocks := int_or (get_default (Std.stl s) 0) 0
                       + int_or (get_default (Std.blk s) 0) 0;
         Row.Usage :=
           Py.round
             (Py.num_mul_int
                (num_or (adv_get adv Adv.usage_percentage) (Py.Int 0)) 100) 1;
         Row.DefRtg := adv_get adv Adv.defensive_rating;
         Row.NetRtg := adv_get adv Adv.net_rating;
         Row.Pace := adv_get adv Adv.pace |}.

(** The rows collected by the loop, in the order of [std_logs]. *)
Definition collect_rows (adv_map : gmap (Z * Z) Adv.t) (std_logs : list Std.t)
  : list Row.t :=
  omap (make_row adv_map) std_logs.

(** *** The data frame *)

Definition row_columns : list string :=
  ["Date"; "Season"; "Player"; "Team"; "Loc"; "Opp_ID"; "MIN"; "PTS"; "REB";
   "AST"; "STL"; "BLK"; "TOV"; "PRA"; "PR"; "PA"; "Stocks"; "Usage";
   "DefRtg"; "NetRtg"; "Pace"]%string.

(** A frame has the columns of the dicts it was built from: none when the
    list of dicts is empty. *)
Record DataFrame : Type := { columns : list string; records : list Row.t }.

Definition mkDataFrame (rows : list Row.t) : DataFrame :=
  {| columns := match rows with [] => [] | _ :: _ => row_columns end;
     records := rows |}.

(** The order of [sort_values(['Date', 'Player'], ascending=[False, True])]:
    [r1] may stand before [r2]. *)
Definition row_le (r1 r2 : Row.t) : bool :=
  match String.compare (Row.Date r1) (Row.Date r2) with
  | Gt => true
  | Lt => false
  | Eq => Py.str_le (Row.Player r1) (Row.Player r2)
  end.

Fixpoint insert_row (r : Row.t) (l : list Row.t) : list Row.t :=
  match l with
  | [] => [r]
  | x :: l' => if row_le r x then r :: l else x :: insert_row r l'
  end.

(** A sort on several columns keeps rows with equal keys in their order;
    insertion from the right does the same. *)
Definition sort_rows (l : list Row.t) : list Row.t := foldr insert_row [] l.

(** [df.sort_values(['Date', 'Player'], ascending=[False, True])]: a column
    that the frame does not have is a KeyError. *)
Definition sort_values (df : DataFrame) : raises DataFrame :=
  match List.find (fun c => negb (bool_decide (c ∈ columns df)))
                  ["Date"; "Player"]%string with
  | Some c => raise (KeyError c)
  | None => ret {| columns := columns df; records := sort_rows (records df) |}
  end.

(** The file written by [to_csv(index=False)]: the header and the rows. *)
Record csv_file : Type := { header : list string; body : list Row.t }.

Definition to_csv (df : DataFrame) : csv_file :=
  {| header := columns df; body := records df |}.

(** [merge_and_export(std_logs, adv_logs)] on the files [fs]: the files
    after the call, or the exception that left them as they were. *)
Definition merge_and_export (std_logs : list Std.t) (adv_logs : list Adv.t)
    (fs : gmap string csv_file) : raises (gmap string csv_file) :=
  let adv_map := build_adv_map adv_logs in
  let rows := collect_rows adv_map std_logs in
  (let! df := sort_values (mkDataFrame rows) in
   ret (<[OUTPUT_FILE := to_csv df]> fs))%raises.

(** ** The network *)

Definition BASE_URL : string := "https://api.balldontlie.io/v1".
Definition SEASONS : list Z := [2024; 2025].

(** The [params] dict of a request, in insertion order. *)
Inductive param : Type :=
| PInt (z : Z)
| PInts (l : list Z)
| PStrs (l : list string).

(** [requests.get(url, headers=HEADERS, params=params)]; the headers are
    the same on every request and are left out. *)
Record request : Type := { url : string; params : list (string * param) }.

(** What the run does to the outside, in order. *)
Inductive event : Type :=
| Get (r : request)
| Sleep (milliseconds : Z).

(** The decoded body of a reply: [d.get('data', [])] and
    [d.get('meta', {}).get('next_cursor')]. *)
Record page (A : Type) : Type := { data : list A; next_cursor : option Z }.
Arguments data {A} p.
Arguments next_cursor {A} p.

(** The answer to one request: [requests.get] raised, or a reply with its
    status and body; the body is [None] when [r.json()] raises. *)
Inductive response (A : Type) : Type :=
| Failed
| Reply (status_code : Z) (json : option (page A)).
Arguments Failed {A}.
Arguments Reply {A} status_code json.

(** A game of the schedule: [g['home_team']['id']] and
    [g['visitor_team']['id']]. *)
Record fixture : Type := { home_team : Z; visitor_team : Z }.

(** The answers the API will give, per endpoint, in the order in which the
    requests to that endpoint arrive.  A request that finds its list empty
    is never answered. *)
Record server : Type :=
  { games : list (response fixture);
    players : list (response Z);
    stats : list (response Std.t);
    advanced : list (response Adv.t) }.

Record world : Type :=
  { net : server;
    files : gmap string csv_file;
    trace : list event }.

(** Truth value of a cursor: [None] and [0] are false. *)
Definition cursor_truthy (cursor : option Z) : bool :=
  match cursor with
  | Some c => negb (c =? 0)
  | None => false
  end.

(** [if cursor: params['cursor'] = cursor]. *)
Definition with_cursor (ps : list (string * param)) (cursor : option Z)
  : list (string * param) :=
  match cursor with
  | Some c => if cursor_truthy cursor then ps ++ [("cursor"%string, PInt c)] else ps
  | None => ps
  end.

Definition stats_request (endpoint : string) (chunk : list Z) (cursor : option Z)
  : request :=
  {| url := BASE_URL +:+ endpoint;
     params := with_cursor [("seasons[]"%string, PInts SEASONS);
                            ("player_ids[]"%string, PInts chunk);
                            ("per_page"%string, PInt 100)] cursor |}.

Definition players_request (tid : Z) (cursor : option Z) : request :=
  {| url := BASE_URL +:+ "/players";
     params := with_cursor [("team_ids[]"%string, PInts [tid]);
                            ("per_page"%string, PInt 100)] cursor |}.

Definition games_request (today : string) : request :=
  {| url := BASE_URL +:+ "/games";
     params := [("dates[]"%string, PStrs [today])] |}.

(** The state in which a pagination loop is left: the list it extends, what
    it did, the answers it has not consumed, and whether it came to its
    [break] ([false]: its last request is still unanswered). *)
Record paged (A : Type) : Type :=
  { items : list A;
    did : list event;
    unread : list (response A);
    broke : bool }.
Arguments items {A} p.
Arguments did {A} p.
Arguments unread {A} p.
Arguments broke {A} p.

Definition after {A} (evs : list event) (p : paged A) : paged A :=
  {| items := items p; did := evs ++ did p; unread := unread p; broke := broke p |}.

(** The [while True] loop over the pages of [/stats] or [/stats/advanced]
    for one chunk.  Every turn consumes one answer. *)
Fixpoint stats_pages {A} (endpoint : string) (chunk : list Z)
    (cursor : option Z) (logs : list A) (rs : list (response A)) : paged A :=
  let req := Get (stats_request endpoint chunk cursor) in
  match rs with
  | [] => {| items := logs; did := [req]; unread := []; broke := false |}
  | Failed :: rs' =>
      {| items := logs; did := [req]; unread := rs'; broke := true |}
  | Reply status_code json :: rs' =>
      if status_code =? 429 then
        after [req; Sleep 2000] (stats_pages endpoint chunk cursor logs rs')
      else
        match json with
        | None => {| items := logs; did := [req]; unread := rs'; broke := true |}
        | Some d =>
            let logs' := logs ++ data d in
            let cursor' := next_cursor d in
            if negb (cursor_truthy cursor') then
              {| items := logs'; did := [req]; unread := rs'; broke := true |}
            else
              after [req; Sleep 120]
                    (stats_pages endpoint chunk cursor' logs' rs')
        end
  end.

(** The [while True] loop over the roster pages of one team. *)
Fixpoint roster_pages (tid : Z) (cursor : option Z) (active_ids : list Z)
    (rs : list (response Z)) : paged Z :=
  let req := Get (players_request tid cursor) in
  match rs with
  | [] => {| items := active_ids; did := [req]; unread := []; broke := false |}
  | Failed :: rs' | Reply _ None :: rs' =>
      {| items := active_ids; did := [req]; unread := rs'; broke := true |}
  | Reply _ (Some d) :: rs' =>
      let active_ids' := active_ids ++ data d in
      let cursor' := next_cursor d in
      if negb (cursor_truthy cursor') then
        {| items := active_ids'; did := [req]; unread := rs'; broke := true |}
      else
        after [req; Sleep 100] (roster_pages tid cursor' active_ids' rs')
  end.

(** [for tid in team_ids]: one roster loop per team, as long as the loops
    come to their end. *)
Fixpoint roster_teams (team_ids : list Z) (active_ids : list Z)
    (rs : list (response Z)) : paged Z :=
  match team_ids with
  | [] => {| items := active_ids; did := []; unread := rs; broke := true |}
  | tid :: rest =>
      let p := roster_pages tid None active_ids rs in
      if broke p then after (did p) (roster_teams rest (items p) (unread p))
      else p
  end.

(** *** Runs *)

(** A call returns, raises, or is still waiting for an answer that the
    server never gives. *)
Inductive outcome (A : Type) : Type :=
| Returns (a : A) (w : world)
| Raises (e : exn) (w : world)
| Waits (w : world).
Arguments Returns {A} a w.
Arguments Raises {A} e w.
Arguments Waits {A} w.

Definition run (A : Type) : Type := world -> outcome A.

Definition run_ret {A} (a : A) : run A := fun w => Returns a w.

Definition run_bind {A B} (m : run A) (k : A -> run B) : run B :=
  fun w =>
    match m w with
    | Returns a w' => k a w'
    | Raises e w' => Raises e w'
    | Waits w' => Waits w'
    end.

Declare Scope run_scope.
Delimit Scope run_scope with run.
Notation "'let*' x ':=' m 'in' k" := (run_bind m (fun x => k))
  (at level 10, x pattern, m at level 100, k at level 200) : run_scope.

Definition set_games (rs : list (response fixture)) (s : server) : server :=
  {| games := rs; players := players s; stats := stats s; advanced := advanced s |}.
Definition set_players (rs : list (response Z)) (s : server) : server :=
  {| games := games s; players := rs; stats := stats s; advanced := advanced s |}.
Definition set_stats (rs : list (response Std.t)) (s : server) : server :=
  {| games := games s; players := players s; stats := rs; advanced := advanced s |}.
Definition set_advanced (rs : list (response Adv.t)) (s : server) : server :=
  {| games := games s; players := players s; stats := stats s; advanced := rs |}.

(** Put a loop's state back into the world. *)
Definition resume {A} (put : list (response A) -> server -> server)
    (p : paged A) : run (list A) :=
  fun w =>
    let w' := {| net := put (unread p) (net w);
                 files := files w;
                 trace := trace w ++ did p |} in
    if broke p then Returns (items p) w' else Waits w'.

(** *** Roster discovery *)

(** [team_ids = set(); for g in games: add home, add visitor]. *)
Definition team_ids_of (gs : list fixture) : gset Z :=
  foldl (fun team_ids g => team_ids ∪ {[home_team g]} ∪ {[visitor_team g]}) ∅ gs.

(** [get_todays_active_rosters()] on the day [today].  A set is walked in
    the order of [elements]. *)
Definition get_todays_active_rosters (today : string) : run (list Z) :=
  fun w =>
    let req := Get (games_request today) in
    let w1 rs := {| net := set_games rs (net w);
                    files := files w;
                    trace := trace w ++ [req] |} in
    match games (net w) with
    | [] => Waits (w1 [])
    | Failed :: rs | Reply _ None :: rs => Returns [] (w1 rs)
    | Reply _ (Some d) :: rs =>
        match data d with
        | [] => Returns [] (w1 rs)
        | gs =>
            let team_ids := team_ids_of gs in
            (let* active_ids :=
               (fun w => resume set_players
                           (roster_teams (elements team_ids) [] (players (net w))) w) in
             run_ret (elements (list_to_set active_ids : gset Z)))%run (w1 rs)
        end
    end.

(** *** The log fetcher *)

(** [player_ids[i:i + chunk_size]] for [i] in
    [range(0, len(player_ids), chunk_size)]. *)
Fixpoint chunks_from (fuel : nat) (chunk_size : nat) (player_ids : list Z)
  : list (list Z) :=
  match fuel, player_ids with
  | S fuel', _ :: _ =>
      take chunk_size player_ids
      :: chunks_from fuel' chunk_size (drop chunk_size player_ids)
  | _, _ => []
  end.

Definition chunks (chunk_size : nat) (player_ids : list Z) : list (list Z) :=
  chunks_from (length player_ids) chunk_size player_ids.

(** The body of the loop over the chunks. *)
Definition fetch_chunk (logs : list Std.t * list Adv.t) (chunk : list Z)
  : run (list Std.t * list Adv.t) :=
  (let* std_logs :=
     (fun w => resume set_stats
                 (stats_pages "/stats" chunk None (fst logs) (stats (net w))) w) in
   let* adv_logs :=
     (fun w => resume set_advanced
                 (stats_pages "/stats/advanced" chunk None (snd logs)
                              (advanced (net w))) w) in
   run_ret (std_logs, adv_logs))%run.

Fixpoint fetch_chunks (cs : list (list Z)) (logs : list Std.t * list Adv.t)
  : run (list Std.t * list Adv.t) :=
  match cs with
  | [] => run_ret logs
  | chunk :: rest =>
      (let* logs' := fetch_chunk logs chunk in fetch_chunks rest logs')%run
  end.

Definition fetch_game_logs (player_ids : list Z) : run (list Std.t * list Adv.t) :=
  fetch_chunks (chunks 50 player_ids) ([], []).

(** *** The pipeline *)

Definition run_merge_and_export (std_logs : list Std.t) (adv_logs : list Adv.t)
  : run unit :=
  fun w =>
    match merge_and_export std_logs adv_logs (files w) with
    | inl e => Raises e w
    | inr fs => Returns tt {| net := net w; files := fs; trace := trace w |}
    end.

Definition main (today : string) : run unit :=
  (let* ids := get_todays_active_rosters today in
   match ids with
   | [] => run_ret tt
   | _ :: _ =>
       let* logs := fetch_game_logs ids in
       run_merge_and_export (fst logs) (snd logs)
   end)%run.

(** ** Vocabulary of the properties *)

(** A counting stat with an absent key and [null] read as zero. *)
Definition stat_or_zero (f : field Z) : Z :=
  match f with
  | Present z => z
  | _ => 0
  end.

(** [a] comes before [b] in the lexicographic order of the code points. *)
Inductive lex_lt : string -> string -> Prop :=
| lex_lt_nil c t : lex_lt EmptyString (String c t)
| lex_lt_head c d s t : Py.code c < Py.code d -> lex_lt (String c s) (String d t)
| lex_lt_tail c s t : lex_lt s t -> lex_lt (String c s) (String c t).

(** The key, in [adv_map], of a standard line. *)
Definition std_key (s : Std.t) : Z * Z :=
  (Player.id (Std.player s), Game.id (Std.game s)).

(** The advanced columns of a row built from the advanced line [a]. *)
Definition uses_adv (row : Row.t) (a : Adv.t) : Prop :=
  Row.Usage row
  = Py.round (Py.num_mul_int (num_or (get (Adv.usage_percentage a)) (Py.Int 0)) 100) 1
  /\ Row.DefRtg row = get (Adv.defensive_rating a)
  /\ Row.NetRtg row = get (Adv.net_rating a)
  /\ Row.Pace row = get (Adv.pace a).

(** A reply with status 429, whatever its body. *)
Definition rate_limited {A} (r : response A) : Prop :=
  exists json, r = Reply 429 json.

(** What [n] rate-limited turns of a stats loop do: the same request and a
    pause of two seconds, [n] times. *)
Definition retries (endpoint : string) (chunk : list Z) (cursor : option Z)
    (n : nat) : list event :=
  concat (replicate n [Get (stats_request endpoint chunk cursor); Sleep 2000]).

(** A request to one of the two stats endpoints. *)
Definition is_stats_request (e : event) : bool :=
  match e with
  | Get r => String.eqb (url r) (BASE_URL +:+ "/stats")
             || String.eqb (url r) (BASE_URL +:+ "/stats/advanced")
  | Sleep _ => false
  end.

(** The rows of [l] with the sort key ([date], [player]), in their order. *)
Definition with_key (date player : string) (l : list Row.t) : list Row.t :=
  filter (fun r => Row.Date r = date /\ Row.Player r = player) l.

(** A sample stat line: 35 minutes 30 seconds at home, no advanced line. *)
Definition sample_std (min : option string) : Std.t :=
  {| Std.player := {| Player.id := 7; Player.first_name := "Ann";
                      Player.last_name := "Lee" |};
     Std.team := {| Team.id := 1; Team.abbreviation := "BOS" |};
     Std.game := {| Game.id := 100; Game.date := "2024-11-02T00:00:00.000Z";
                    Game.home_team_id := 1; Game.visitor_team_id := 2 |};
     Std.min := min;
     Std.pts := Present 20;
     Std.reb := Present 5;
     Std.ast := Present 7;
     Std.stl := Present 1;
     Std.blk := Null;
     Std.turnover := Absent |}.

Definition sample_adv (player_id game_id : Z) (usage : Py.num) : Adv.t :=
  {| Adv.player_id := player_id;
     Adv.game_id := game_id;
     Adv.usage_percentage := Present usage;
     Adv.defensive_rating := Present (Py.Int 110);
     Adv.net_rating := Null;
     Adv.pace := Absent |}.

(** The row of [sample_std (Some "35:30")] when no advanced line matches. *)
Definition sample_row : Row.t :=
  {| Row.Date := "2024-11-02";
     Row.Season := 2025;
     Row.Player := "Ann Lee";
     Row.Team := "BOS";
     Row.Loc := "Home";
     Row.Opp_ID := 2;
     Row.MIN := S754_finite false 4996180836614144 (-47);
     Row.PTS := 20;
     Row.REB := 5;
     Row.AST := 7;
     Row.STL := 1;
     Row.BLK := 0;
     Row.TOV := 0;
     Row.PRA := 32;
     Row.PR := 25;
     Row.PA := 27;
     Row.Stocks := 1;
     Row.Usage := Py.Int 0;
     Row.DefRtg := None;
     Row.NetRtg := None;
     Row.Pace := None |}.

(** [r1] may stand before [r2] in the output: its date is the later one, or
    the dates are equal and its player is not the later name. *)
Definition ordered_before (r1 r2 : Row.t) : Prop :=
  lex_lt (Row.Date r2) (Row.Date r1)
  \/ (Row.Date r1 = Row.Date r2
      /\ (lex_lt (Row.Player r1) (Row.Player r2) \/ Row.Player r1 = Row.Player r2)).

(** Three lines of one player: an older game, then two lines of the same
    later game with 20 and 30 points. *)
Definition sample_std_on (date : string) (pts : Z) : Std.t :=
  {| Std.player := Std.player (sample_std (Some "35:30"%string));
     Std.team := Std.team (sample_std (Some "35:30"%string));
     Std.game := {| Game.id := 100; Game.date := date;
                    Game.home_team_id := 1; Game.visitor_team_id := 2 |};
     Std.min := Some "35:30"%string;
     Std.pts := Present pts;
     Std.reb := Absent;
     Std.ast := Absent;
     Std.stl := Absent;
     Std.blk := Absent;
     Std.turnover := Absent |}.

Definition sample_logs : list Std.t :=
  [sample_std_on "2024-11-01" 10; sample_std_on "2024-11-02" 20;
   sample_std_on "2024-11-02" 30].

(** *** Vocabulary of the further properties *)

(** [total_chunks] of [fetch_game_logs], the count its progress line shows. *)
Definition total_chunks (player_ids : list Z) (chunk_size : nat) : nat :=
  (length player_ids / chunk_size + 1)%nat.

Definition is_get (e : event) : bool :=
  match e with
  | Get _ => true
  | Sleep _ => false
  end.

(** What a stats loop for [chunk] on [endpoint] may do: a request for that
    chunk with some cursor, a pause of two seconds, a pause of 120 ms. *)
Definition stats_event (endpoint : string) (chunk : list Z) (e : event) : Prop :=
  (exists cursor, e = Get (stats_request endpoint chunk cursor))
  \/ e = Sleep 2000 \/ e = Sleep 120.

(** What the roster loop of team [tid] may do. *)
Definition roster_event (tid : Z) (e : event) : Prop :=
  (exists cursor, e = Get (players_request tid cursor)) \/ e = Sleep 100.

(** A reply that the stats loops treat as a page: any status but 429, with
    a body. *)
Definition page_reply {A} (sd : Z * page A) : response A :=
  Reply (fst sd) (Some (snd sd)).

(** The requests and pauses of a stats loop that walks the pages [ds], each
    of which names a further page, starting from [cursor]. *)
Fixpoint page_walk {A} (endpoint : string) (chunk : list Z) (cursor : option Z)
    (ds : list (Z * page A)) : list event :=
  match ds with
  | [] => []
  | sd :: ds' =>
      Get (stats_request endpoint chunk cursor) :: Sleep 120
      :: page_walk endpoint chunk (next_cursor (snd sd)) ds'
  end.

(** The cursor a stats loop holds after the pages [ds]. *)
Definition cursor_after {A} (cursor : option Z) (ds : list (Z * page A))
  : option Z :=
  match last ds with
  | Some sd => next_cursor (snd sd)
  | None => cursor
  end.

(** One endpoint's loops over all the chunks, on that endpoint's answers
    alone: a chunk's loop starts from the list and the answers the chunk
    before it left. *)
Fixpoint chunk_pages {A} (endpoint : string) (cs : list (list Z))
    (logs : list A) (rs : list (response A)) : paged A :=
  match cs with
  | [] => {| items := logs; did := []; unread := rs; broke := true |}
  | chunk :: rest =>
      let p := stats_pages endpoint chunk None logs rs in
      if broke p then after (did p) (chunk_pages endpoint rest (items p) (unread p))
      else p
  end.

(** The world in which a call ends or waits. *)
Definition world_of {A} (o : outcome A) : world :=
  match o with
  | Returns _ w => w
  | Raises _ w => w
  | Waits w => w
  end.

Definition is_raise {A} (o : outcome A) : bool :=
  match o with
  | Raises _ _ => true
  | _ => false
  end.

(** A non-empty run of at most 4300 decimal digits. *)
Definition digit_string (s : string) : Prop :=
  s <> EmptyString
  /\ forallb Py.is_digit (list_ascii_of_string s) = true
  /\ (String.length s <= Py.int_max_str_digits)%nat.

(** A stat line of the team [team_id] in a game of [home] against
    [visitor]. *)
Definition sample_std_for (team_id home visitor : Z) : Std.t :=
  {| Std.player := Std.player (sample_std (Some "35:30"%string));
     Std.team := {| Team.id := team_id; Team.abbreviation := "TEAM" |};
     Std.game := {| Game.id := 100; Game.date := "2024-11-02";
                    Game.home_team_id := home; Game.visitor_team_id := visitor |};
     Std.min := Some "12"%string;
     Std.pts := Absent;
     Std.reb := Absent;
     Std.ast := Absent;
     Std.stl := Absent;
     Std.blk := Absent;
     Std.turnover := Absent |}.

(** A world in which the API knows one game of teams 1 and 2, answers the
    first roster request with player 7 and fails the second, gives one page
    of standard lines after a rate-limited reply, and no decodable advanced
    page. *)
Definition sample_world : world :=
  {| net := {| games := [Reply 200 (Some {| data := [{| home_team := 1;
                                                        visitor_team := 2 |}];
                                            next_cursor := None |})];
               players := [Reply 200 (Some {| data := [7]; next_cursor := None |});
                           Failed];
               stats := [Reply 429 None;
                         Reply 200 (Some {| data := [sample_std (Some "35:30"%string)];
                                            next_cursor := None |})];
               advanced := [Reply 200 None] |};
     files := ∅;
     trace := [] |}.

(** The values of [min] that stand for "did not play", one by one. *)
Definition sentinel (m : option string) : Prop :=
  m = None \/ m = Some "0"%string \/ m = Some "00"%string
  \/ m = Some "0:00"%string \/ m = Some ""%string.

(** A request for a first page: its [params] have no ['cursor'] key. *)
Definition is_first_page (e : event) : bool :=
  match e with
  | Get r => forallb (fun kv => negb (String.eqb (fst kv) "cursor")) (params r)
  | Sleep _ => false
  end.

(** Open [make_row adv_map s = Some row]: the line passed the guard and
    [row] is the record the loop body builds. *)
Ltac open_row s :=
  unfold make_row; destruct (is_dnp (Std.min s)); [discriminate|];
  intros [= <-].

(** ** Properties *)

(** *** The built-ins on sample inputs *)

Example int_samples :
  map Py.int [" 35 "; "+5"; "-0"; "1_000"; "007"; "3.5"; ""; "1__0"; "+ 5"]%string
  = [inr 35; inr 5; inr 0; inr 1000; inr 7; inl ValueError; inl ValueError;
     inl ValueError; inl ValueError].
Proof. reflexivity. Qed.

Example float_samples :
  map Py.float ["35"; "12.5"; " .5e1 "; "-0"; "1e400"; "NaN"; "-inf"; "1_0.2_5";
                "1."; "."; "1e"; "0x10"; "abc"]%string
  = [inr (Py.nearest_int 35); inr (S754_finite false 7036874417766400 (-49));
     inr (Py.nearest_int 5); inr (S754_zero true); inr (S754_infinity false);
     inr S754_nan; inr (S754_infinity true);
     inr (S754_finite false 5770237022568448 (-49)); inr (Py.nearest_int 1);
     inl ValueError; inl ValueError; inl ValueError; inl ValueError].
Proof. reflexivity. Qed.

Example split_samples :
  map (Py.split ":") ["35:30"; "1:2:3"; ":"; "35"; ""]%string
  = [["35"; "30"]; ["1"; "2"; "3"]; [""; ""]; ["35"]; [""]]%string.
Proof. reflexivity. Qed.

(** 2.675 is stored below the tie and rounds down; 0.125 is a tie and goes
    to the even neighbour. *)
Example round_samples :
  bind (Py.float "2.675") (fun x => ret (Py.round_float x 2)) = Py.float "2.67"
  /\ bind (Py.float "0.125") (fun x => ret (Py.round_float x 2)) = Py.float "0.12"
  /\ Py.round_float (S754_zero true) 2 = S754_zero true
  /\ Py.round_float S754_nan 2 = S754_nan.
Proof. repeat split; reflexivity. Qed.

(** Minutes on sample strings: a second colon is not looked at, a piece
    that is not an int and a string that is not a float give 0.0. *)
Example parse_min_samples :
  map parse_min ["35:30"; "35"; "12.5"; "00:00"; "1:30:59"; "35:xx"; ":30"; "DNP";
                 " 7 : 15 "]%string
  = [S754_finite false 4996180836614144 (-47); Py.nearest_int 35;
     S754_finite false 7036874417766400 (-49); S754_zero false;
     S754_finite false 6755399441055744 (-52); S754_zero false; S754_zero false;
     S754_zero false; S754_finite false 8162774324609024 (-50)].
Proof. reflexivity. Qed.

(** *** Minutes *)

Lemma make_row_emits adv_map s :
  is_dnp (Std.min s) = false ->
  exists row, make_row adv_map s = Some row
              /\ Row.MIN row = Py.round_float (parse_min (str_of_min (Std.min s))) 2.
Proof.
  intros Hplay. unfold make_row. rewrite Hplay. eexists. split; reflexivity.
Qed.

Lemma parse_min_colon m s0 s1 rest a b x q :
  Py.contains ":" m = true ->
  Py.split ":" m = s0 :: s1 :: rest ->
  Py.int s0 = inr a -> Py.int s1 = inr b ->
  Py.int_truediv b 60 = inr q -> Py.float_of_int a = inr x ->
  parse_min m = Py.fadd x q.
Proof.
  intros Hc Hs Ha Hb Hq Hx.
  unfold parse_min, parse_min_try. rewrite Hc, Hs. cbn [Py.item lookup list_lookup bind ret].
  rewrite Ha. cbn [bind]. rewrite Hb. cbn [bind]. rewrite Hq. cbn [bind].
  unfold Py.int_add_float. rewrite Hx. reflexivity.
Qed.

Lemma parse_min_plain m f :
  Py.contains ":" m = false -> Py.float m = inr f -> parse_min m = f.
Proof.
  intros Hc Hf. unfold parse_min, parse_min_try. rewrite Hc, Hf. reflexivity.
Qed.

Lemma parse_min_raises m e :
  parse_min_try m = inl e -> parse_min m = S754_zero false.
Proof. intros H. unfold parse_min. rewrite H. reflexivity. Qed.

(** C1. A line that is not skipped is given a row whose [MIN] is the parsed
    minutes rounded to two decimals.  When [min] holds a colon the minutes
    are the int before it plus the int after it divided by 60 (the first
    two pieces of the split; [float_of_int] and [int_truediv] are the
    conversions of that sum and quotient); without a colon they are
    [float] of the string; when the parse raises they are [0.0], and the row
    is emitted all the same. *)
Theorem minutes_parsed (adv_map : gmap (Z * Z) Adv.t) (s : Std.t) :
  is_dnp (Std.min s) = false ->
  let m := str_of_min (Std.min s) in
  (exists row, make_row adv_map s = Some row
               /\ Row.MIN row = Py.round_float (parse_min m) 2)
  /\ (forall s0 s1 rest a b x q,
         Py.contains ":" m = true ->
         Py.split ":" m = s0 :: s1 :: rest ->
         Py.int s0 = inr a -> Py.int s1 = inr b ->
         Py.int_truediv b 60 = inr q -> Py.float_of_int a = inr x ->
         parse_min m = Py.fadd x q)
  /\ (forall f, Py.contains ":" m = false -> Py.float m = inr f -> parse_min m = f)
  /\ (forall e, parse_min_try m = inl e -> parse_min m = S754_zero false).
Proof.
  intros Hplay m. repeat split.
  - apply make_row_emits; assumption.
  - intros. eapply parse_min_colon; eassumption.
  - intros. apply parse_min_plain; assumption.
  - intros. eapply parse_min_raises; eassumption.
Qed.

(** "35:30" is 35.5 minutes. *)
Lemma minutes_parsed_witness :
  is_dnp (Std.min (sample_std (Some "35:30"%string))) = false
  /\ parse_min "35:30" = S754_finite false 4996180836614144 (-47)
  /\ SFmul Py.prec Py.emax (S754_finite false 4996180836614144 (-47)) (Py.nearest_int 2)
     = Py.nearest_int 71.
Proof.
  split; [reflexivity|]. split; [|reflexivity].
  exact (proj1 (proj2 (minutes_parsed ∅ (sample_std (Some "35:30"%string)) eq_refl))
           "35"%string "30"%string [] 35 30 _ _ eq_refl eq_refl eq_refl eq_refl
           eq_refl eq_refl).
Defined.

(** *** The did-not-play guard *)

Lemma is_dnp_true m :
  is_dnp m = true
  <-> m = None \/ m = Some "0"%string \/ m = Some "00"%string
      \/ m = Some "0:00"%string \/ m = Some ""%string.
Proof.
  unfold is_dnp, dnp_sentinels. rewrite bool_decide_eq_true.
  rewrite !elem_of_cons, elem_of_nil. tauto.
Qed.

Lemma make_row_None adv_map s :
  make_row adv_map s = None <-> is_dnp (Std.min s) = true.
Proof.
  unfold make_row. destruct (is_dnp (Std.min s)); split; congruence.
Qed.

(** The guard inside the loop: a line gives no row exactly when its [min]
    is one of the sentinels, and the rows are collected in place. *)
Lemma dnp_excluded (adv_map : gmap (Z * Z) Adv.t) (s : Std.t)
    (before after : list Std.t) :
  (make_row adv_map s = None
   <-> Std.min s = None \/ Std.min s = Some "0"%string
       \/ Std.min s = Some "00"%string \/ Std.min s = Some "0:00"%string
       \/ Std.min s = Some ""%string)
  /\ collect_rows adv_map (before ++ s :: after)
     = collect_rows adv_map before ++ option_list (make_row adv_map s)
       ++ collect_rows adv_map after
  /\ is_Some (make_row adv_map (sample_std (Some "00:00"%string))).
Proof.
  split; [|split].
  - rewrite make_row_None. apply is_dnp_true.
  - unfold collect_rows. rewrite omap_app. cbn [omap list_omap].
    destruct (make_row adv_map s); reflexivity.
  - unfold make_row. cbn. eexists. reflexivity.
Qed.

(** *** Derived columns *)

Lemma int_or_get_default f : int_or (get_default f 0) 0 = stat_or_zero f.
Proof.
  destruct f as [| |z]; cbn; try reflexivity.
  destruct (Z.eqb_spec z 0); congruence.
Qed.

Lemma make_row_combos adv_map s row :
  make_row adv_map s = Some row ->
  Row.PTS row = stat_or_zero (Std.pts s)
  /\ Row.REB row = stat_or_zero (Std.reb s)
  /\ Row.AST row = stat_or_zero (Std.ast s)
  /\ Row.STL row = stat_or_zero (Std.stl s)
  /\ Row.BLK row = stat_or_zero (Std.blk s)
  /\ Row.PRA row = Row.PTS row + Row.REB row + Row.AST row
  /\ Row.PR row = Row.PTS row + Row.REB row
  /\ Row.PA row = Row.PTS row + Row.AST row
  /\ Row.Stocks row = Row.STL row + Row.BLK row.
Proof.
  open_row s. cbn. rewrite !int_or_get_default. repeat split.
Qed.

(** *** The sort *)

Lemma insert_row_perm r l : insert_row r l ≡ₚ r :: l.
Proof.
  induction l as [|x l IH]; cbn; [reflexivity|].
  destruct (row_le r x); [reflexivity|].
  rewrite IH. apply Permutation_swap.
Qed.

Lemma sort_rows_perm l : sort_rows l ≡ₚ l.
Proof.
  induction l as [|r l IH]; cbn; [reflexivity|].
  rewrite insert_row_perm. f_equiv. exact IH.
Qed.

(** *** What the merger returns *)

Lemma merge_and_export_inr std_logs adv_logs fs fs' :
  merge_and_export std_logs adv_logs fs = inr fs' ->
  collect_rows (build_adv_map adv_logs) std_logs <> []
  /\ fs' = <[OUTPUT_FILE :=
              {| header := row_columns;
                 body := sort_rows (collect_rows (build_adv_map adv_logs) std_logs) |}]> fs.
Proof.
  unfold merge_and_export.
  destruct (collect_rows (build_adv_map adv_logs) std_logs) as [|r rows];
    cbn; [discriminate|].
  intros [= <-]. split; [discriminate|reflexivity].
Qed.

Lemma merge_and_export_empty std_logs adv_logs fs :
  collect_rows (build_adv_map adv_logs) std_logs = [] ->
  merge_and_export std_logs adv_logs fs = inl (KeyError "Date").
Proof. unfold merge_and_export. intros ->. reflexivity. Qed.

Lemma written_rows std_logs adv_logs fs fs' f :
  merge_and_export std_logs adv_logs fs = inr fs' ->
  fs' !! OUTPUT_FILE = Some f ->
  body f = sort_rows (collect_rows (build_adv_map adv_logs) std_logs).
Proof.
  intros H Hf. apply merge_and_export_inr in H as [_ ->].
  rewrite lookup_insert_eq in Hf. injection Hf as <-. reflexivity.
Qed.

Lemma written_row_origin std_logs adv_logs fs fs' f row :
  merge_and_export std_logs adv_logs fs = inr fs' ->
  fs' !! OUTPUT_FILE = Some f ->
  row ∈ body f ->
  exists s, s ∈ std_logs /\ make_row (build_adv_map adv_logs) s = Some row.
Proof.
  intros H Hf Hrow. rewrite (written_rows _ _ _ _ _ H Hf) in Hrow.
  rewrite sort_rows_perm in Hrow. unfold collect_rows in Hrow.
  apply list_elem_of_omap in Hrow. exact Hrow.
Qed.

(** C3. In every row of the written file, PRA = PTS + REB + AST,
    PR = PTS + REB, PA = PTS + AST and Stocks = STL + BLK, where PTS, REB,
    AST, STL and BLK are the stats of the standard line the row was built
    from, an absent or null stat counting as zero. *)
Theorem combos_exact (std_logs : list Std.t) (adv_logs : list Adv.t)
    (fs fs' : gmap string csv_file) (f : csv_file) (row : Row.t) :
  merge_and_export std_logs adv_logs fs = inr fs' ->
  fs' !! OUTPUT_FILE = Some f ->
  row ∈ body f ->
  exists s,
    s ∈ std_logs
    /\ make_row (build_adv_map adv_logs) s = Some row
    /\ Row.PTS row = stat_or_zero (Std.pts s)
    /\ Row.REB row = stat_or_zero (Std.reb s)
    /\ Row.AST row = stat_or_zero (Std.ast s)
    /\ Row.STL row = stat_or_zero (Std.stl s)
    /\ Row.BLK row = stat_or_zero (Std.blk s)
    /\ Row.PRA row = Row.PTS row + Row.REB row + Row.AST row
    /\ Row.PR row = Row.PTS row + Row.REB row
    /\ Row.PA row = Row.PTS row + Row.AST row
    /\ Row.Stocks row = Row.STL row + Row.BLK row.
Proof.
  intros H Hf Hrow.
  destruct (written_row_origin _ _ _ _ _ _ H Hf Hrow) as (s & Hs & Hmk).
  exists s. split; [exact Hs|]. split; [exact Hmk|].
  apply (make_row_combos _ _ _ Hmk).
Qed.

Lemma combos_exact_witness :
  Row.PRA sample_row = 20 + 5 + 7
  /\ Row.PR sample_row = 20 + 5
  /\ Row.PA sample_row = 20 + 7
  /\ Row.Stocks sample_row = 1 + 0.
Proof.
  destruct (combos_exact [sample_std (Some "35:30"%string)] [] ∅
              (<[OUTPUT_FILE := {| header := row_columns; body := [sample_row] |}]> ∅)
              {| header := row_columns; body := [sample_row] |} sample_row
              eq_refl (lookup_insert_eq _ _ _) (list_elem_of_here _ _))
    as (_ & _ & _ & _ & _ & _ & _ & _ & HPRA & HPR & HPA & HStocks).
  exact (conj HPRA (conj HPR (conj HPA HStocks))).
Defined.

(** *** Lexicographic order *)

Lemma ascii_compare_code c d :
  Ascii.compare c d = Z.compare (Py.code c) (Py.code d).
Proof. unfold Ascii.compare, Py.code. symmetry. apply N2Z.inj_compare. Qed.

Lemma code_inj c d : Py.code c = Py.code d -> c = d.
Proof.
  unfold Py.code. intros H. apply N2Z.inj in H.
  rewrite <- (ascii_N_embedding c), <- (ascii_N_embedding d). congruence.
Qed.

Lemma compare_Lt_lex a b : String.compare a b = Lt <-> lex_lt a b.
Proof.
  revert b. induction a as [|c s IH]; intros [|d t]; cbn.
  - split; [discriminate|inversion 1].
  - split; [constructor|reflexivity].
  - split; [discriminate|inversion 1].
  - rewrite ascii_compare_code.
    destruct (Z.compare_spec (Py.code c) (Py.code d)) as [Heq|Hlt|Hgt].
    + apply code_inj in Heq. subst d. rewrite IH. split.
      * apply lex_lt_tail.
      * inversion 1; subst; [lia|assumption].
    + split; [intros _; apply lex_lt_head; assumption|reflexivity].
    + split; [discriminate|].
      inversion 1; subst; lia.
Qed.

Lemma compare_Gt_lex a b : String.compare a b = Gt <-> lex_lt b a.
Proof.
  rewrite <- compare_Lt_lex, (String.compare_antisym b a).
  destruct (String.compare a b); cbn; split; congruence.
Qed.

Lemma compare_Eq_eq a b : String.compare a b = Eq <-> a = b.
Proof.
  split; [apply String.compare_eq_iff|].
  intros ->. induction b as [|c s IH]; cbn; [reflexivity|].
  rewrite ascii_compare_code, Z.compare_refl. exact IH.
Qed.

Lemma lex_lt_irrefl a : ~ lex_lt a a.
Proof.
  intros H. apply compare_Lt_lex in H.
  rewrite (proj2 (compare_Eq_eq a a) eq_refl) in H. discriminate.
Qed.

Lemma lex_lt_trans a b c : lex_lt a b -> lex_lt b c -> lex_lt a c.
Proof.
  intros Hab. revert c. induction Hab as [x t|x y s t Hxy|x s t Hst IH];
    intros c Hbc; inversion Hbc; subst.
  - constructor.
  - constructor.
  - apply lex_lt_head. lia.
  - apply lex_lt_head. assumption.
  - apply lex_lt_head. assumption.
  - apply lex_lt_tail. apply IH. assumption.
Qed.

Lemma str_gt_lex a b : Py.str_gt a b = true <-> lex_lt b a.
Proof.
  unfold Py.str_gt. rewrite <- compare_Gt_lex.
  destruct (String.compare a b); split; congruence.
Qed.

Lemma str_le_lex a b : Py.str_le a b = true <-> lex_lt a b \/ a = b.
Proof.
  unfold Py.str_le, Py.str_gt.
  rewrite <- compare_Lt_lex, <- compare_Eq_eq.
  destruct (String.compare a b); cbn; split; intros; try tauto; try congruence;
    destruct H; congruence.
Qed.

Lemma row_le_spec r1 r2 : row_le r1 r2 = true <-> ordered_before r1 r2.
Proof.
  unfold row_le, ordered_before.
  destruct (String.compare (Row.Date r1) (Row.Date r2)) eqn:Hc.
  - apply compare_Eq_eq in Hc. rewrite str_le_lex, Hc. split.
    + intros H. right. split; [reflexivity|exact H].
    + intros [H|[_ H]]; [|exact H]. exfalso. exact (lex_lt_irrefl _ H).
  - apply compare_Lt_lex in Hc. split; [discriminate|].
    intros [H|[Heq _]]; exfalso.
    + exact (lex_lt_irrefl _ (lex_lt_trans _ _ _ Hc H)).
    + rewrite Heq in Hc. exact (lex_lt_irrefl _ Hc).
  - apply compare_Gt_lex in Hc. split; [intros _; left; exact Hc|reflexivity].
Qed.

Lemma row_le_total r1 r2 : row_le r1 r2 = false -> row_le r2 r1 = true.
Proof.
  unfold row_le. rewrite (String.compare_antisym (Row.Date r2) (Row.Date r1)).
  destruct (String.compare (Row.Date r1) (Row.Date r2)) eqn:Hc; cbn;
    try congruence.
  unfold Py.str_le, Py.str_gt.
  rewrite (String.compare_antisym (Row.Player r2) (Row.Player r1)).
  destruct (String.compare (Row.Player r1) (Row.Player r2)); cbn; congruence.
Qed.

Lemma ordered_before_trans r1 r2 r3 :
  ordered_before r1 r2 -> ordered_before r2 r3 -> ordered_before r1 r3.
Proof.
  unfold ordered_before.
  intros [H12|[E12 P12]] [H23|[E23 P23]].
  - left. eapply lex_lt_trans; eassumption.
  - left. rewrite <- E23. exact H12.
  - left. rewrite E12. exact H23.
  - right. split; [congruence|].
    destruct P12 as [P12|P12], P23 as [P23|P23].
    + left. eapply lex_lt_trans; eassumption.
    + left. rewrite <- P23. exact P12.
    + left. rewrite P12. exact P23.
    + right. congruence.
Qed.

(** *** Sortedness and stability *)

Lemma insert_row_sorted r l :
  StronglySorted ordered_before l -> StronglySorted ordered_before (insert_row r l).
Proof.
  induction 1 as [|x l Hl IH Hx]; cbn.
  - constructor; constructor.
  - destruct (row_le r x) eqn:Hle.
    + apply row_le_spec in Hle. constructor.
      * constructor; assumption.
      * constructor; [exact Hle|].
        eapply Forall_impl; [exact Hx|].
        intros y Hy. eapply ordered_before_trans; eassumption.
    + apply row_le_total, row_le_spec in Hle. constructor; [exact IH|].
      rewrite insert_row_perm. constructor; assumption.
Qed.

Lemma sort_rows_sorted l : StronglySorted ordered_before (sort_rows l).
Proof.
  induction l as [|r l IH]; cbn; [constructor|].
  apply insert_row_sorted, IH.
Qed.

Lemma row_le_same_key r x :
  Row.Date r = Row.Date x -> Row.Player r = Row.Player x -> row_le r x = true.
Proof.
  intros Hd Hp. apply row_le_spec. right. split; [exact Hd|]. right. exact Hp.
Qed.

Lemma with_key_insert date player r l :
  with_key date player (insert_row r l) = with_key date player (r :: l).
Proof.
  unfold with_key. induction l as [|x l IH]; cbn [insert_row]; [reflexivity|].
  destruct (row_le r x) eqn:Hle; [reflexivity|].
  rewrite (filter_cons _ x), IH, !filter_cons.
  repeat case_decide; try reflexivity.
  exfalso. rewrite row_le_same_key in Hle; [discriminate| |];
    destruct_and!; congruence.
Qed.

Lemma with_key_sort date player l :
  with_key date player (sort_rows l) = with_key date player l.
Proof.
  induction l as [|r l IH]; cbn [sort_rows foldr]; [reflexivity|].
  rewrite with_key_insert. unfold with_key in *.
  rewrite !filter_cons. fold (sort_rows l). rewrite IH. reflexivity.
Qed.

(** C5. The rows of the written file are the emitted rows, rearranged so
    that every row stands before every later one in the order "Date
    descending, then Player ascending" (code points, left to right); rows
    with the same Date and the same Player stand in the order in which they
    were emitted from the standard list. *)
Theorem output_sorted_stable (std_logs : list Std.t) (adv_logs : list Adv.t)
    (fs fs' : gmap string csv_file) (f : csv_file) :
  merge_and_export std_logs adv_logs fs = inr fs' ->
  fs' !! OUTPUT_FILE = Some f ->
  let emitted := collect_rows (build_adv_map adv_logs) std_logs in
  body f ≡ₚ emitted
  /\ StronglySorted ordered_before (body f)
  /\ forall date player,
       with_key date player (body f) = with_key date player emitted.
Proof.
  intros H Hf emitted. rewrite (written_rows _ _ _ _ _ H Hf). fold emitted.
  split; [apply sort_rows_perm|]. split; [apply sort_rows_sorted|].
  intros. apply with_key_sort.
Qed.

(** *** Season *)

Lemma make_row_season adv_map s row :
  make_row adv_map s = Some row ->
  Row.Season row = season_of (Game.date (Std.game s)).
Proof.
  open_row s. reflexivity.
Qed.

(** C7. The Season of a row is 2025 when the date string of the game comes
    after "2024-09-01" in the lexicographic order of the code points, and
    2024 otherwise; the date "2024-09-01" itself gives 2024. *)
Theorem season_label (adv_map : gmap (Z * Z) Adv.t) (s : Std.t) (row : Row.t) :
  make_row adv_map s = Some row ->
  (lex_lt "2024-09-01" (Game.date (Std.game s)) -> Row.Season row = 2025)
  /\ (~ lex_lt "2024-09-01" (Game.date (Std.game s)) -> Row.Season row = 2024)
  /\ (Game.date (Std.game s) = "2024-09-01"%string -> Row.Season row = 2024).
Proof.
  intros Hmk. rewrite (make_row_season _ _ _ Hmk). unfold season_of.
  pose proof (str_gt_lex (Game.date (Std.game s)) "2024-09-01") as Hgt.
  destruct (Py.str_gt (Game.date (Std.game s)) "2024-09-01").
  - split; [reflexivity|]. split.
    + intros Hn. exfalso. apply Hn, Hgt. reflexivity.
    + intros Heq. exfalso. rewrite Heq in Hgt.
      exact (lex_lt_irrefl _ (proj1 Hgt eq_refl)).
  - split; [|split; reflexivity].
    intros Hlt. apply Hgt in Hlt. discriminate.
Qed.

Lemma season_label_witness :
  make_row ∅ (sample_std (Some "35:30"%string)) = Some sample_row
  /\ Row.Season sample_row = 2025.
Proof.
  split; [reflexivity|].
  exact (proj1 (season_label ∅ (sample_std (Some "35:30"%string)) sample_row eq_refl)
           (proj1 (str_gt_lex "2024-11-02T00:00:00.000Z" "2024-09-01") eq_refl)).
Defined.

Lemma output_sorted_stable_witness :
  map Row.PTS (sort_rows (collect_rows ∅ sample_logs)) = [20; 30; 10]
  /\ sort_rows (collect_rows ∅ sample_logs) ≡ₚ collect_rows ∅ sample_logs
  /\ StronglySorted ordered_before (sort_rows (collect_rows ∅ sample_logs))
  /\ forall date player,
       with_key date player (sort_rows (collect_rows ∅ sample_logs))
       = with_key date player (collect_rows ∅ sample_logs).
Proof.
  split; [reflexivity|].
  exact (output_sorted_stable sample_logs [] ∅
           (<[OUTPUT_FILE := {| header := row_columns;
                                body := sort_rows (collect_rows ∅ sample_logs) |}]> ∅)
           {| header := row_columns;
              body := sort_rows (collect_rows ∅ sample_logs) |}
           eq_refl (lookup_insert_eq _ _ _)).
Defined.

(** *** The map of advanced lines *)

Lemma build_adv_map_snoc l a :
  build_adv_map (l ++ [a]) = <[adv_key a := a]> (build_adv_map l).
Proof. unfold build_adv_map. rewrite foldl_snoc. reflexivity. Qed.

Lemma build_adv_map_lookup l k :
  build_adv_map l !! k = last (filter (fun a => adv_key a = k) l).
Proof.
  induction l as [|a l IH] using rev_ind; [reflexivity|].
  rewrite build_adv_map_snoc, filter_app.
  destruct (decide (adv_key a = k)) as [Heq|Hne].
  - rewrite Heq, lookup_insert_eq, filter_cons_True, filter_nil by exact Heq.
    symmetry. apply last_snoc.
  - rewrite lookup_insert_ne, filter_cons_False, filter_nil, app_nil_r
      by exact Hne.
    exact IH.
Qed.

Lemma build_adv_map_None l k :
  build_adv_map l !! k = None <-> forall a, a ∈ l -> adv_key a <> k.
Proof.
  rewrite build_adv_map_lookup, last_None. split.
  - intros Hnil a Ha Hk.
    assert (a ∈ filter (fun a => adv_key a = k) l) as Hin
      by (apply list_elem_of_filter; split; assumption).
    rewrite Hnil in Hin. inversion Hin.
  - intros Hall. destruct (filter (fun a => adv_key a = k) l) as [|a l'] eqn:Hf;
      [reflexivity|].
    assert (a ∈ filter (fun a => adv_key a = k) l) as Hin
      by (rewrite Hf; left).
    apply list_elem_of_filter in Hin as [Hk Ha]. destruct (Hall a Ha Hk).
Qed.

Lemma build_adv_map_Some l k a :
  build_adv_map l !! k = Some a -> a ∈ l /\ adv_key a = k.
Proof.
  rewrite build_adv_map_lookup. intros Hlast.
  apply last_Some in Hlast as [l' Hl'].
  assert (a ∈ filter (fun a => adv_key a = k) l) as Hin
    by (rewrite Hl'; apply elem_of_app; right; left).
  apply list_elem_of_filter in Hin. tauto.
Qed.

Lemma make_row_adv adv_map s row :
  make_row adv_map s = Some row ->
  let adv := adv_map !! std_key s in
  Row.Usage row
  = Py.round (Py.num_mul_int (num_or (adv_get adv Adv.usage_percentage) (Py.Int 0)) 100) 1
  /\ Row.DefRtg row = adv_get adv Adv.defensive_rating
  /\ Row.NetRtg row = adv_get adv Adv.net_rating
  /\ Row.Pace row = adv_get adv Adv.pace.
Proof.
  open_row s. cbn. repeat split.
Qed.

(** C6. The map built from the advanced list holds, under each key, the
    last line of the list with that key, and a row whose standard line has
    that key takes its Usage, DefRtg, NetRtg and Pace from that last line. *)
Theorem last_advanced_wins (adv_logs : list Adv.t) :
  (forall k,
      build_adv_map adv_logs !! k = last (filter (fun a => adv_key a = k) adv_logs))
  /\ (forall s row a,
         make_row (build_adv_map adv_logs) s = Some row ->
         last (filter (fun b => adv_key b = std_key s) adv_logs) = Some a ->
         uses_adv row a).
Proof.
  split; [intros; apply build_adv_map_lookup|].
  intros s row a Hmk Hlast.
  apply make_row_adv in Hmk. cbn zeta in Hmk.
  rewrite build_adv_map_lookup, Hlast in Hmk. exact Hmk.
Qed.

(** Two advanced lines with the key of the sample line: the second one's
    usage, 0.25, is the one that shows, as 25.0. *)
Example duplicate_key_sample :
  option_map Row.Usage
    (make_row (build_adv_map [sample_adv 7 100 (Py.Int 1);
                              sample_adv 7 100 (Py.Float (S754_finite false 1 (-2)))])
              (sample_std (Some "35:30"%string)))
  = Some (Py.Float (Py.nearest_int 25)).
Proof. reflexivity. Qed.

(** *** Lines without an advanced line *)

(** C4, as stated, fails on a line that is skipped as did-not-play: its key
    has no entry in the map of advanced lines, and no row is emitted for
    it. *)
Lemma unmatched_dnp_has_no_row :
  ~ (forall (adv_logs : list Adv.t) (s : Std.t),
        build_adv_map adv_logs !! std_key s = None ->
        exists row,
          make_row (build_adv_map adv_logs) s = Some row
          /\ Row.Usage row = Py.Int 0
          /\ Row.DefRtg row = None
          /\ Row.NetRtg row = None
          /\ Row.Pace row = None).
Proof.
  intros H.
  destruct (H [] (sample_std (Some "0:00"%string)) eq_refl) as (row & Hrow & _).
  discriminate Hrow.
Qed.

(** C4, amended. A standard line that is not skipped as did-not-play and
    whose pair (player id, game id) is the key of no advanced line is given a
    row with Usage 0 and DefRtg, NetRtg and Pace null.  The lookup is by
    equality of the pair: the map has an entry for a pair exactly when some
    advanced line has that pair as its key, and the entry is such a line. *)
Theorem unmatched_defaults (adv_logs : list Adv.t) (s : Std.t) :
  is_dnp (Std.min s) = false ->
  (forall a, a ∈ adv_logs -> adv_key a <> std_key s) ->
  (exists row,
      make_row (build_adv_map adv_logs) s = Some row
      /\ Row.Usage row = Py.Int 0
      /\ Row.DefRtg row = None
      /\ Row.NetRtg row = None
      /\ Row.Pace row = None)
  /\ (forall k, build_adv_map adv_logs !! k = None
                <-> forall a, a ∈ adv_logs -> adv_key a <> k)
  /\ (forall k a, build_adv_map adv_logs !! k = Some a
                  -> a ∈ adv_logs /\ adv_key a = k).
Proof.
  intros Hplay Hnone. split; [|split].
  - destruct (make_row_emits (build_adv_map adv_logs) s Hplay) as (row & Hmk & _).
    exists row. split; [exact Hmk|].
    apply make_row_adv in Hmk. cbn zeta in Hmk.
    rewrite (proj2 (build_adv_map_None adv_logs (std_key s)) Hnone) in Hmk.
    exact Hmk.
  - intros k. apply build_adv_map_None.
  - intros k a. apply build_adv_map_Some.
Qed.

Lemma unmatched_defaults_witness :
  is_dnp (Std.min (sample_std (Some "35:30"%string))) = false
  /\ exists row,
       make_row (build_adv_map [sample_adv 8 100 (Py.Int 1)])
                (sample_std (Some "35:30"%string)) = Some row
       /\ Row.Usage row = Py.Int 0
       /\ Row.DefRtg row = None
       /\ Row.NetRtg row = None
       /\ Row.Pace row = None.
Proof.
  split; [reflexivity|].
  refine (proj1 (unmatched_defaults [sample_adv 8 100 (Py.Int 1)]
                   (sample_std (Some "35:30"%string)) eq_refl _)).
  intros a Ha. apply list_elem_of_singleton in Ha. subst a. discriminate.
Defined.

(** *** No rows *)

Lemma collect_rows_nil adv_map std_logs :
  collect_rows adv_map std_logs = []
  <-> forall s, s ∈ std_logs -> is_dnp (Std.min s) = true.
Proof.
  unfold collect_rows. induction std_logs as [|s l IH]; cbn.
  - split; [intros _ s Hs; inversion Hs|reflexivity].
  - destruct (make_row adv_map s) as [row|] eqn:Hmk.
    + split; [discriminate|]. intros Hall.
      assert (make_row adv_map s = None) as Hn
        by (apply make_row_None, Hall; left).
      congruence.
    + apply make_row_None in Hmk. rewrite IH. split.
      * intros Hall x Hx. apply elem_of_cons in Hx as [->|Hx]; auto.
      * intros Hall x Hx. apply Hall. right. exact Hx.
Qed.

(** C10. When no row is emitted (the standard list is empty, or every line
    carries a did-not-play sentinel) the merger raises the KeyError of the
    sort on the missing column 'Date' and the files, hence the world, are
    left as they were; and whenever the merger does write the file, the file
    has at least one row under the full header. *)
Theorem empty_output_raises (std_logs : list Std.t) (adv_logs : list Adv.t) :
  ((forall s, s ∈ std_logs -> is_dnp (Std.min s) = true) ->
   forall fs w,
     merge_and_export std_logs adv_logs fs = inl (KeyError "Date")
     /\ run_merge_and_export std_logs adv_logs w = Raises (KeyError "Date") w)
  /\ merge_and_export [] adv_logs ∅ = inl (KeyError "Date")
  /\ (forall fs fs' f,
         merge_and_export std_logs adv_logs fs = inr fs' ->
         fs' !! OUTPUT_FILE = Some f ->
         body f <> [] /\ header f = row_columns).
Proof.
  split; [|split].
  - intros Hall fs w.
    assert (forall fs0, merge_and_export std_logs adv_logs fs0 = inl (KeyError "Date"))
      as Hraise
      by (intros; apply merge_and_export_empty, collect_rows_nil, Hall).
    split; [apply Hraise|].
    unfold run_merge_and_export. rewrite Hraise. reflexivity.
  - reflexivity.
  - intros fs fs' f H Hf.
    apply merge_and_export_inr in H as [Hne ->].
    rewrite lookup_insert_eq in Hf. injection Hf as <-. cbn. split; [|reflexivity].
    intros Hnil. apply Hne. apply Permutation_nil_r.
    rewrite <- Hnil. symmetry. apply sort_rows_perm.
Qed.

(** *** Sentinels and the written file *)

Lemma merge_and_export_rows std_logs adv_logs fs :
  merge_and_export std_logs adv_logs fs
  = match collect_rows (build_adv_map adv_logs) std_logs with
    | [] => inl (KeyError "Date")
    | _ :: _ =>
        inr (<[OUTPUT_FILE :=
                 {| header := row_columns;
                    body := sort_rows (collect_rows (build_adv_map adv_logs)
                                                    std_logs) |}]> fs)
    end.
Proof.
  unfold merge_and_export.
  destruct (collect_rows (build_adv_map adv_logs) std_logs); reflexivity.
Qed.

Lemma sentinel_is_dnp m : sentinel m <-> is_dnp m = true.
Proof. symmetry. apply is_dnp_true. Qed.

Lemma collect_rows_without adv_map before s after :
  collect_rows adv_map (before ++ s :: after)
  = collect_rows adv_map before ++ option_list (make_row adv_map s)
    ++ collect_rows adv_map after.
Proof.
  unfold collect_rows. rewrite omap_app. cbn [omap list_omap].
  destruct (make_row adv_map s); reflexivity.
Qed.

Lemma collect_rows_with adv_map before s after row :
  make_row adv_map s = Some row ->
  collect_rows adv_map (before ++ s :: after)
  ≡ₚ row :: collect_rows adv_map (before ++ after).
Proof.
  intros Hmk. rewrite collect_rows_without, Hmk. unfold collect_rows.
  rewrite omap_app. cbn [option_list app]. symmetry. apply Permutation_middle.
Qed.

(** C2. A standard line is left out of the written file exactly when its
    [min] is null, "0", "00", "0:00" or the empty string, whatever its other
    fields.  With such a line in the list, [merge_and_export] does what it
    does without it; with any other line it does something else: it writes
    the file, the row of the line is in it, and the rows of the file are
    that row and the rows of the other lines.  "00:00" is not a sentinel. *)
Theorem dnp_excluded_from_output (before after : list Std.t) (s : Std.t)
    (adv_logs : list Adv.t) (fs : gmap string csv_file) :
  (merge_and_export (before ++ s :: after) adv_logs fs
   = merge_and_export (before ++ after) adv_logs fs
   <-> sentinel (Std.min s))
  /\ (sentinel (Std.min s) ->
      forall fs' f,
        merge_and_export (before ++ s :: after) adv_logs fs = inr fs' ->
        fs' !! OUTPUT_FILE = Some f ->
        body f ≡ₚ collect_rows (build_adv_map adv_logs) (before ++ after))
  /\ (~ sentinel (Std.min s) ->
      exists row fs' f,
        make_row (build_adv_map adv_logs) s = Some row
        /\ merge_and_export (before ++ s :: after) adv_logs fs = inr fs'
        /\ fs' !! OUTPUT_FILE = Some f
        /\ row ∈ body f
        /\ body f ≡ₚ row :: collect_rows (build_adv_map adv_logs) (before ++ after))
  /\ ~ sentinel (Some "00:00"%string).
Proof.
  set (adv_map := build_adv_map adv_logs).
  assert (sentinel (Std.min s) ->
          collect_rows adv_map (before ++ s :: after)
          = collect_rows adv_map (before ++ after)) as Hsame.
  { intros Hs. apply sentinel_is_dnp, make_row_None with (adv_map := adv_map) in Hs.
    rewrite collect_rows_without, Hs. unfold collect_rows. rewrite omap_app.
    reflexivity. }
  assert (~ sentinel (Std.min s) ->
          exists row fs' f,
            make_row adv_map s = Some row
            /\ merge_and_export (before ++ s :: after) adv_logs fs = inr fs'
            /\ fs' !! OUTPUT_FILE = Some f
            /\ row ∈ body f
            /\ body f ≡ₚ row :: collect_rows adv_map (before ++ after)) as Hin.
  { intros Hs.
    destruct (make_row adv_map s) as [row|] eqn:Hmk;
      [|exfalso; apply Hs, sentinel_is_dnp, make_row_None with (adv_map := adv_map);
        exact Hmk].
    pose proof (collect_rows_with adv_map before s after row Hmk) as Hperm.
    rewrite merge_and_export_rows. fold adv_map.
    destruct (collect_rows adv_map (before ++ s :: after)) as [|r rows] eqn:Hrows.
    - apply Permutation_nil_l in Hperm. discriminate.
    - exists row. eexists. eexists. split; [reflexivity|]. split; [reflexivity|].
      split; [apply lookup_insert_eq|]. cbn [body].
      split; [rewrite sort_rows_perm, Hperm; left|].
      rewrite sort_rows_perm. exact Hperm. }
  split; [|split; [|split]].
  - split.
    + intros Heq.
      destruct (is_dnp (Std.min s)) eqn:Hd; [apply sentinel_is_dnp; exact Hd|].
      exfalso.
      assert (~ sentinel (Std.min s)) as Hs
        by (rewrite sentinel_is_dnp; congruence).
      destruct (Hin Hs) as (row & fs' & f & _ & Hm & Hf & _ & Hperm).
      rewrite Heq in Hm.
      pose proof (written_rows _ _ _ _ _ Hm Hf) as Hbody.
      fold adv_map in Hbody. rewrite Hbody, sort_rows_perm in Hperm.
      apply Permutation_length in Hperm. cbn in Hperm. lia.
    + intros Hs. rewrite !merge_and_export_rows. fold adv_map.
      rewrite (Hsame Hs). reflexivity.
  - intros Hs fs' f Hm Hf. rewrite (written_rows _ _ _ _ _ Hm Hf). fold adv_map.
    rewrite sort_rows_perm, (Hsame Hs). reflexivity.
  - exact Hin.
  - intros [H|[H|[H|[H|H]]]]; discriminate.
Qed.

(** A list whose one line has minutes "00:00": the file is written, with
    one row of zero minutes. *)
Example zero_minutes_row :
  match merge_and_export [sample_std (Some "00:00"%string)] [] ∅ with
  | inr fs' => option_map (fun f => map Row.MIN (body f)) (fs' !! OUTPUT_FILE)
  | inl _ => None
  end
  = Some [S754_zero false].
Proof. reflexivity. Qed.

(** *** Rate limiting *)

Lemma after_after {A} evs1 evs2 (p : paged A) :
  after evs1 (after evs2 p) = after (evs1 ++ evs2) p.
Proof. unfold after. cbn. rewrite app_assoc. reflexivity. Qed.

Lemma after_nil {A} (p : paged A) : after [] p = p.
Proof. destruct p. reflexivity. Qed.

Lemma stats_pages_429 {A} endpoint chunk cursor (logs : list A) json rs :
  stats_pages endpoint chunk cursor logs (Reply 429 json :: rs)
  = after [Get (stats_request endpoint chunk cursor); Sleep 2000]
          (stats_pages endpoint chunk cursor logs rs).
Proof. reflexivity. Qed.

Lemma stats_pages_limited {A} endpoint chunk cursor (logs : list A) limited rs :
  Forall rate_limited limited ->
  stats_pages endpoint chunk cursor logs (limited ++ rs)
  = after (retries endpoint chunk cursor (length limited))
          (stats_pages endpoint chunk cursor logs rs).
Proof.
  induction 1 as [|r limited [json ->] _ IH].
  - cbn. symmetry. apply after_nil.
  - cbn [app length]. rewrite stats_pages_429, IH, after_after. reflexivity.
Qed.

(** In [fetch_game_logs] itself: rate-limited replies at the head of the
    answers of [/stats] only add their retries to the trace of the chunk. *)
Lemma fetch_chunk_rate_limited logs chunk w limited rs :
  Forall rate_limited limited ->
  stats (net w) = limited ++ rs ->
  fetch_chunk logs chunk w
  = fetch_chunk logs chunk
      {| net := set_stats rs (net w);
         files := files w;
         trace := trace w ++ retries "/stats" chunk None (length limited) |}.
Proof.
  intros Hlim Hstats. unfold fetch_chunk, run_bind, resume. rewrite Hstats.
  rewrite (stats_pages_limited _ _ _ _ _ _ Hlim). cbn.
  rewrite !app_assoc. reflexivity.
Qed.

(** C9. In the loop over the pages of either stats endpoint, a run of
    replies with status 429, however long, leaves the loop where it was:
    for each of them the loop issues the request with the cursor and the
    parameters it had, sleeps two seconds, and goes on with the same cursor
    and the same accumulated list; if nothing but such replies ever comes,
    the loop has not ended and is waiting on the same request again. *)
Theorem rate_limit_retry (A : Type) (endpoint : string) (chunk : list Z)
    (cursor : option Z) (logs : list A) (limited rs : list (response A)) :
  Forall rate_limited limited ->
  stats_pages endpoint chunk cursor logs (limited ++ rs)
  = after (retries endpoint chunk cursor (length limited))
          (stats_pages endpoint chunk cursor logs rs)
  /\ stats_pages endpoint chunk cursor logs limited
     = {| items := logs;
          did := retries endpoint chunk cursor (length limited)
                 ++ [Get (stats_request endpoint chunk cursor)];
          unread := [];
          broke := false |}.
Proof.
  intros Hlim. split; [apply stats_pages_limited, Hlim|].
  rewrite <- (app_nil_r limited) at 1.
  rewrite (stats_pages_limited _ _ _ _ _ _ Hlim). reflexivity.
Qed.

Lemma rate_limit_retry_witness :
  stats_pages "/stats/advanced" [7] (Some 3) [sample_adv 7 100 (Py.Int 1)]
              [Reply 429 None; Reply 429 None]
  = {| items := [sample_adv 7 100 (Py.Int 1)];
       did := [Get (stats_request "/stats/advanced" [7] (Some 3)); Sleep 2000;
               Get (stats_request "/stats/advanced" [7] (Some 3)); Sleep 2000;
               Get (stats_request "/stats/advanced" [7] (Some 3))];
       unread := [];
       broke := false |}.
Proof.
  refine (proj2 (rate_limit_retry Adv.t "/stats/advanced" [7] (Some 3)
                   [sample_adv 7 100 (Py.Int 1)]
                   [Reply 429 None; Reply 429 None] [] _)).
  repeat constructor; eexists; reflexivity.
Defined.

(** *** An empty roster *)

Lemma roster_pages_quiet tid cursor active_ids rs :
  Forall (fun e => is_stats_request e = false)
         (did (roster_pages tid cursor active_ids rs)).
Proof.
  revert cursor active_ids.
  induction rs as [|r rs IH]; intros cursor active_ids; cbn.
  - repeat constructor.
  - destruct r as [|status_code [d|]]; cbn; try (repeat constructor).
    destruct (cursor_truthy (next_cursor d)); cbn.
    + repeat constructor. apply IH.
    + repeat constructor.
Qed.

Lemma roster_teams_quiet team_ids active_ids rs :
  Forall (fun e => is_stats_request e = false)
         (did (roster_teams team_ids active_ids rs)).
Proof.
  revert active_ids rs.
  induction team_ids as [|tid rest IH]; intros active_ids rs; cbn.
  - constructor.
  - destruct (broke (roster_pages tid None active_ids rs)) eqn:Hb.
    + cbn. apply Forall_app. split; [apply roster_pages_quiet|apply IH].
    + apply roster_pages_quiet.
Qed.

Lemma rosters_leave_stats today w ids w' :
  get_todays_active_rosters today w = Returns ids w' ->
  files w' = files w
  /\ stats (net w') = stats (net w)
  /\ advanced (net w') = advanced (net w)
  /\ exists evs, trace w' = trace w ++ evs
                 /\ Forall (fun e => is_stats_request e = false) evs.
Proof.
  unfold get_todays_active_rosters.
  destruct (games (net w)) as [|[|status_code [d|]] rs]; try discriminate.
  - intros [= <- <-]. cbn. repeat split. eexists. split; [reflexivity|].
    repeat constructor.
  - destruct (data d) as [|g gs].
    + intros [= <- <-]. cbn. repeat split. eexists. split; [reflexivity|].
      repeat constructor.
    + unfold run_bind, resume, run_ret. cbn.
      set (p := roster_teams _ _ _).
      pose proof (roster_teams_quiet
                    (elements (team_ids_of (g :: gs))) [] (players (net w))) as Hq.
      fold p in Hq. destruct (broke p); [|discriminate].
      intros [= <- <-]. cbn. repeat split.
      eexists. split; [rewrite <- app_assoc; reflexivity|].
      constructor; [reflexivity|exact Hq].
  - intros [= <- <-]. cbn. repeat split. eexists. split; [reflexivity|].
    repeat constructor.
Qed.

(** A schedule with one game whose roster requests both fail: no player is
    found and the run ends after three requests, none of them for stats,
    with the stats answers unread and no file written. *)
Example failed_rosters_sample :
  exists w',
    main "2024-11-02"
         {| net := {| games := [Reply 200 (Some {| data := [{| home_team := 1;
                                                               visitor_team := 2 |}];
                                                   next_cursor := None |})];
                      players := [Failed; Reply 500 None];
                      stats := [Reply 429 None];
                      advanced := [] |};
            files := ∅;
            trace := [] |}
    = Returns tt w'
    /\ files w' = ∅
    /\ stats (net w') = [Reply 429 None]
    /\ length (trace w') = 3%nat
    /\ forallb (fun e => negb (is_stats_request e)) (trace w') = true.
Proof. eexists. repeat split. Qed.

(** C8. When the roster discovery returns the empty list, [main] returns in
    the world the discovery left: the files are untouched, the answers of
    both stats endpoints are unread, and nothing the run did is a request
    to a stats endpoint.  A schedule without games is such a case: the
    discovery returns the empty list after its one request. *)
Theorem empty_roster_stops (today : string) (w : world) :
  (forall w',
      get_todays_active_rosters today w = Returns [] w' ->
      main today w = Returns tt w'
      /\ files w' = files w
      /\ stats (net w') = stats (net w)
      /\ advanced (net w') = advanced (net w)
      /\ exists evs, trace w' = trace w ++ evs
                     /\ Forall (fun e => is_stats_request e = false) evs)
  /\ (forall status_code cursor rest,
         games (net w)
         = Reply status_code (Some {| data := []; next_cursor := cursor |}) :: rest ->
         get_todays_active_rosters today w
         = Returns [] {| net := set_games rest (net w);
                         files := files w;
                         trace := trace w ++ [Get (games_request today)] |}).
Proof.
  split.
  - intros w' Hids. split; [|exact (rosters_leave_stats _ _ _ _ Hids)].
    unfold main, run_bind. rewrite Hids. reflexivity.
  - intros status_code cursor rest Hgames.
    unfold get_todays_active_rosters. rewrite Hgames. reflexivity.
Qed.

(** ** Further properties *)

(** *** Chunks *)

Lemma chunks_from_concat fuel n l :
  (0 < n)%nat -> (length l <= fuel)%nat -> concat (chunks_from fuel n l) = l.
Proof.
  intros Hn. revert l.
  induction fuel as [|fuel IH]; intros l Hlen.
  - destruct l; [reflexivity|cbn in Hlen; lia].
  - destruct l as [|x l]; [reflexivity|].
    cbn [chunks_from concat]. rewrite IH, take_drop; [reflexivity|].
    rewrite length_drop. cbn [length] in *. lia.
Qed.

Lemma chunks_from_sizes fuel n l :
  (0 < n)%nat ->
  Forall (fun c => c <> [] /\ (length c <= n)%nat) (chunks_from fuel n l).
Proof.
  intros Hn. revert l.
  induction fuel as [|fuel IH]; intros l; [constructor|].
  destruct l as [|x l]; [constructor|].
  cbn [chunks_from]. constructor; [|apply IH].
  split.
  - destruct n; [lia|]. discriminate.
  - rewrite length_take. lia.
Qed.

Lemma ceil_step n x :
  (0 < n)%nat -> (0 < x)%nat ->
  ((x + n - 1) / n = S ((x - n + n - 1) / n))%nat.
Proof.
  intros Hn Hx. destruct (le_lt_dec n x) as [Hle|Hlt].
  - replace (x + n - 1)%nat with ((x - n + n - 1) + 1 * n)%nat by lia.
    rewrite Nat.div_add by lia. lia.
  - replace (x - n + n - 1)%nat with (n - 1)%nat by lia.
    rewrite (Nat.div_small (n - 1) n) by lia.
    replace (x + n - 1)%nat with ((x - 1) + 1 * n)%nat by lia.
    rewrite Nat.div_add by lia. rewrite (Nat.div_small (x - 1) n) by lia.
    reflexivity.
Qed.

Lemma chunks_from_length fuel n l :
  (0 < n)%nat -> (length l <= fuel)%nat ->
  length (chunks_from fuel n l) = ((length l + n - 1) / n)%nat.
Proof.
  intros Hn. revert l.
  induction fuel as [|fuel IH]; intros l Hlen.
  - destruct l; [|cbn in Hlen; lia]. cbn. symmetry. apply Nat.div_small. lia.
  - destruct l as [|x l].
    + cbn. symmetry. apply Nat.div_small. lia.
    + cbn [chunks_from length]. rewrite IH.
      * rewrite length_drop. cbn [length].
        symmetry. apply ceil_step; lia.
      * rewrite length_drop. cbn [length] in *. lia.
Qed.

(** X1. The chunks of [fetch_game_logs] cut the identifier list into pieces
    of at most 50, none empty, that put end to end give the list back. *)
Theorem chunks_partition (player_ids : list Z) :
  concat (chunks 50 player_ids) = player_ids
  /\ Forall (fun c => c <> [] /\ (length c <= 50)%nat) (chunks 50 player_ids)
  /\ length (chunks 50 player_ids) = ((length player_ids + 49) / 50)%nat.
Proof.
  unfold chunks. split; [|split].
  - apply chunks_from_concat; lia.
  - apply chunks_from_sizes; lia.
  - rewrite chunks_from_length by lia.
    f_equal. lia.
Qed.

(** X2. The count that the progress line of [fetch_game_logs] shows is the
    number of chunks it walks, except when the number of identifiers is a
    multiple of 50 (zero included): then it is one more. *)
Theorem total_chunks_overcounts (player_ids : list Z) :
  total_chunks player_ids 50
  = (length (chunks 50 player_ids)
     + (if (length player_ids mod 50 =? 0)%nat then 1 else 0))%nat.
Proof.
  unfold total_chunks, chunks. rewrite chunks_from_length by lia.
  pose proof (Nat.div_mod_eq (length player_ids) 50) as Hdm.
  pose proof (Nat.mod_upper_bound (length player_ids) 50 ltac:(lia)) as Hub.
  set (q := (length player_ids / 50)%nat) in *.
  set (r := (length player_ids mod 50)%nat) in *.
  destruct (Nat.eqb_spec r 0) as [Hr|Hr].
  - replace (length player_ids + 50 - 1)%nat with (49 + q * 50)%nat by lia.
    rewrite Nat.div_add by lia. rewrite (Nat.div_small 49 50) by lia. lia.
  - replace (length player_ids + 50 - 1)%nat with ((r - 1) + (q + 1) * 50)%nat by lia.
    rewrite Nat.div_add by lia. rewrite (Nat.div_small (r - 1) 50) by lia. lia.
Qed.

(** *** The stats loop *)

Lemma stats_pages_items {A} endpoint chunk cursor (logs : list A) rs :
  exists more,
    items (stats_pages endpoint chunk cursor logs rs) = logs ++ more
    /\ forall x, x ∈ more ->
         exists status_code d, Reply status_code (Some d) ∈ rs /\ x ∈ data d.
Proof.
  revert cursor logs.
  induction rs as [|r rs IH]; intros cursor logs.
  - exists []. cbn. rewrite app_nil_r. split; [reflexivity|]. intros x Hx. inversion Hx.
  - assert (exists more : list A, logs = logs ++ more /\
              forall x, x ∈ more ->
                exists status_code d, Reply status_code (Some d) ∈ r :: rs /\ x ∈ data d)
      as Hstay
      by (exists []; rewrite app_nil_r; split; [reflexivity|]; intros x Hx; inversion Hx).
    destruct r as [|status_code [d|]]; cbn [stats_pages]; try exact Hstay.
    + destruct (status_code =? 429).
      * destruct (IH cursor logs) as (more & Hitems & Hfrom).
        exists more. cbn. split; [exact Hitems|].
        intros x Hx. destruct (Hfrom x Hx) as (st & d' & Hin & Hd).
        exists st, d'. split; [right; exact Hin|exact Hd].
      * destruct (cursor_truthy (next_cursor d)); cbn.
        -- destruct (IH (next_cursor d) (logs ++ data d)) as (more & Hitems & Hfrom).
           exists (data d ++ more). rewrite Hitems, <- app_assoc. split; [reflexivity|].
           intros x Hx. apply elem_of_app in Hx as [Hx|Hx].
           ++ exists status_code, d. split; [left|exact Hx].
           ++ destruct (Hfrom x Hx) as (st & d' & Hin & Hd).
              exists st, d'. split; [right; exact Hin|exact Hd].
        -- exists (data d). split; [reflexivity|].
           intros x Hx. exists status_code, d. split; [left|exact Hx].
    + destruct (status_code =? 429); [|exact Hstay].
      destruct (IH cursor logs) as (more & Hitems & Hfrom).
      exists more. cbn. split; [exact Hitems|].
      intros x Hx. destruct (Hfrom x Hx) as (st & d' & Hin & Hd).
      exists st, d'. split; [right; exact Hin|exact Hd].
Qed.

(** X3. Whatever the answers, a stats loop only ever extends the list it was
    given: what it had is kept, in front and in order, also when a request
    fails or a body cannot be decoded, and every record it adds comes from
    the data of one of the replies. *)
Theorem stats_loop_accumulates (A : Type) (endpoint : string) (chunk : list Z)
    (cursor : option Z) (logs : list A) (rs : list (response A)) :
  exists more,
    items (stats_pages endpoint chunk cursor logs rs) = logs ++ more
    /\ forall x, x ∈ more ->
         exists status_code d, Reply status_code (Some d) ∈ rs /\ x ∈ data d.
Proof. apply stats_pages_items. Qed.

Lemma cursor_after_cons {A} cursor (sd : Z * page A) ds :
  cursor_after cursor (sd :: ds) = cursor_after (next_cursor (snd sd)) ds.
Proof.
  unfold cursor_after. destruct ds as [|sd' ds]; [reflexivity|].
  rewrite last_cons_cons. destruct (last (sd' :: ds)) eqn:Hl; [reflexivity|].
  apply last_None in Hl. discriminate.
Qed.

Lemma stats_pages_walk {A} endpoint chunk cursor (logs : list A) ds rs :
  Forall (fun sd => fst sd <> 429 /\ cursor_truthy (next_cursor (snd sd)) = true) ds ->
  stats_pages endpoint chunk cursor logs (map page_reply ds ++ rs)
  = after (page_walk endpoint chunk cursor ds)
          (stats_pages endpoint chunk (cursor_after cursor ds)
                       (logs ++ concat (map (fun sd => data (snd sd)) ds)) rs).
Proof.
  intros Hds. revert cursor logs.
  induction Hds as [|[status_code d] ds [Hst Hcur] _ IH]; intros cursor logs.
  - cbn. rewrite app_nil_r, after_nil. reflexivity.
  - cbn [map app page_reply fst snd stats_pages] in *.
    apply Z.eqb_neq in Hst. rewrite Hst, Hcur. cbn [negb].
    rewrite IH, after_after, cursor_after_cons. cbn [concat map snd page_walk].
    rewrite <- app_assoc. reflexivity.
Qed.

(** X4. When the API answers page after page (any status but 429, a body
    whose next cursor is neither null nor 0) and then a last page without a
    usable cursor, the loop ends having appended the data of all the pages
    in order; each request carries the cursor of the page before it, with
    120 ms between two requests, and the answers after the last page are
    left unread. *)
Theorem stats_loop_walks_pages (A : Type) (endpoint : string) (chunk : list Z)
    (cursor : option Z) (logs : list A) (ds : list (Z * page A))
    (status_code : Z) (final : page A) (rs : list (response A)) :
  Forall (fun sd => fst sd <> 429 /\ cursor_truthy (next_cursor (snd sd)) = true) ds ->
  status_code <> 429 ->
  cursor_truthy (next_cursor final) = false ->
  stats_pages endpoint chunk cursor logs
              (map page_reply ds ++ Reply status_code (Some final) :: rs)
  = {| items := logs ++ concat (map (fun sd => data (snd sd)) ds) ++ data final;
       did := page_walk endpoint chunk cursor ds
              ++ [Get (stats_request endpoint chunk (cursor_after cursor ds))];
       unread := rs;
       broke := true |}.
Proof.
  intros Hds Hst Hfinal. rewrite (stats_pages_walk _ _ _ _ _ _ Hds).
  cbn [stats_pages]. apply Z.eqb_neq in Hst. rewrite Hst, Hfinal. cbn.
  unfold after. cbn. rewrite <- app_assoc. reflexivity.
Qed.

Lemma stats_loop_walks_pages_witness :
  stats_pages "/stats" [7; 8] None [sample_std None]
    [Reply 200 (Some {| data := [sample_std (Some "1"%string)]; next_cursor := Some 25 |});
     Reply 500 (Some {| data := [sample_std (Some "2"%string)]; next_cursor := Some 50 |});
     Reply 200 (Some {| data := [sample_std (Some "3"%string)]; next_cursor := Some 0 |});
     Failed]
  = {| items := [sample_std None; sample_std (Some "1"%string);
                 sample_std (Some "2"%string); sample_std (Some "3"%string)];
       did := [Get (stats_request "/stats" [7; 8] None); Sleep 120;
               Get (stats_request "/stats" [7; 8] (Some 25)); Sleep 120;
               Get (stats_request "/stats" [7; 8] (Some 50))];
       unread := [Failed];
       broke := true |}.
Proof.
  refine (stats_loop_walks_pages Std.t "/stats" [7; 8] None [sample_std None]
            [(200, {| data := [sample_std (Some "1"%string)]; next_cursor := Some 25 |});
             (500, {| data := [sample_std (Some "2"%string)]; next_cursor := Some 50 |})]
            200 {| data := [sample_std (Some "3"%string)]; next_cursor := Some 0 |}
            [Failed] _ _ eq_refl).
  - repeat constructor; cbn; lia.
  - lia.
Defined.

Lemma stats_pages_accounting {A} endpoint chunk cursor (logs : list A) rs :
  let p := stats_pages endpoint chunk cursor logs rs in
  Forall (stats_event endpoint chunk) (did p)
  /\ exists used,
       rs = used ++ unread p
       /\ length (filter (fun e => is_get e = true) (did p))
          = (length used + (if broke p then 0 else 1))%nat.
Proof.
  revert cursor logs.
  induction rs as [|r rs IH]; intros cursor logs.
  - cbn. split.
    + constructor; [|constructor]. left. eexists. reflexivity.
    + exists []. split; reflexivity.
  - assert (stats_event endpoint chunk (Get (stats_request endpoint chunk cursor)))
      as Hget by (left; eexists; reflexivity).
    assert (forall p : paged A,
               did p = [Get (stats_request endpoint chunk cursor)] ->
               unread p = rs -> broke p = true ->
               Forall (stats_event endpoint chunk) (did p)
               /\ exists used,
                    r :: rs = used ++ unread p
                    /\ length (filter (fun e => is_get e = true) (did p))
                       = (length used + (if broke p then 0 else 1))%nat) as Hbreak.
    { intros p -> -> ->. split; [constructor; [exact Hget|constructor]|].
      exists [r]. split; reflexivity. }
    assert (forall c l pause,
               pause = 2000 \/ pause = 120 ->
               let p := after [Get (stats_request endpoint chunk cursor); Sleep pause]
                              (stats_pages endpoint chunk c l rs) in
               Forall (stats_event endpoint chunk) (did p)
               /\ exists used,
                    r :: rs = used ++ unread p
                    /\ length (filter (fun e => is_get e = true) (did p))
                       = (length used + (if broke p then 0 else 1))%nat) as Hgo.
    { intros c l pause Hpause. destruct (IH c l) as (Hev & used & Hrs & Hcount).
      cbn zeta. unfold after. cbn [did unread broke app]. split.
      - constructor; [exact Hget|]. constructor; [|exact Hev].
        right. destruct Hpause as [-> | ->]; [left|right]; reflexivity.
      - exists (r :: used). split; [cbn; congruence|].
        rewrite filter_cons_True by reflexivity.
        rewrite filter_cons_False by discriminate.
        cbn [length]. rewrite Hcount. reflexivity. }
    destruct r as [|status_code [d|]]; cbn [stats_pages].
    + apply Hbreak; reflexivity.
    + destruct (status_code =? 429); [apply Hgo; left; reflexivity|].
      destruct (cursor_truthy (next_cursor d)); cbn [negb].
      * apply Hgo. right. reflexivity.
      * apply Hbreak; reflexivity.
    + destruct (status_code =? 429); [apply Hgo; left; reflexivity|].
      apply Hbreak; reflexivity.
Qed.

(** X5. Every request of a stats loop goes to the loop's endpoint with the
    loop's chunk, both seasons and a page size of 100, and its pauses are of
    two seconds or 120 ms; the loop consumes the answers from the front, one
    per request, so that when it has ended it made as many requests as it
    consumed answers, and when it has not, one more. *)
Theorem stats_loop_accounting (A : Type) (endpoint : string) (chunk : list Z)
    (cursor : option Z) (logs : list A) (rs : list (response A)) :
  let p := stats_pages endpoint chunk cursor logs rs in
  Forall (stats_event endpoint chunk) (did p)
  /\ exists used,
       rs = used ++ unread p
       /\ length (filter (fun e => is_get e = true) (did p))
          = (length used + (if broke p then 0 else 1))%nat.
Proof. apply stats_pages_accounting. Qed.

(** *** The log fetcher *)

Lemma fetch_chunk_cases logs chunk w :
  let p1 := stats_pages "/stats" chunk None (fst logs) (stats (net w)) in
  let p2 := stats_pages "/stats/advanced" chunk None (snd logs) (advanced (net w)) in
  let w1 := {| net := set_stats (unread p1) (net w);
               files := files w;
               trace := trace w ++ did p1 |} in
  let w2 := {| net := set_advanced (unread p2) (set_stats (unread p1) (net w));
               files := files w;
               trace := (trace w ++ did p1) ++ did p2 |} in
  fetch_chunk logs chunk w
  = if broke p1
    then if broke p2 then Returns (items p1, items p2) w2 else Waits w2
    else Waits w1.
Proof.
  cbn zeta. unfold fetch_chunk, run_bind, resume, run_ret.
  destruct (broke (stats_pages "/stats" chunk None (fst logs) (stats (net w))));
    [|reflexivity].
  cbn [net advanced set_stats files trace].
  destruct (broke (stats_pages "/stats/advanced" chunk None (snd logs)
                               (advanced (net w)))); reflexivity.
Qed.

Lemma stats_pages_first {A} endpoint chunk cursor (logs : list A) rs :
  exists evs,
    did (stats_pages endpoint chunk cursor logs rs)
    = Get (stats_request endpoint chunk cursor) :: evs.
Proof.
  destruct rs as [|[|status_code [d|]] rs]; cbn [stats_pages];
    try (eexists; reflexivity).
  - destruct (status_code =? 429); [eexists; reflexivity|].
    destruct (cursor_truthy (next_cursor d)); eexists; reflexivity.
  - destruct (status_code =? 429); eexists; reflexivity.
Qed.

Lemma stats_event_kind endpoint chunk e :
  endpoint = "/stats"%string \/ endpoint = "/stats/advanced"%string ->
  stats_event endpoint chunk e ->
  is_stats_request e = true \/ is_get e = false.
Proof.
  intros Hend [[cursor ->]|[->| ->]]; [left|right; reflexivity|right; reflexivity].
  destruct Hend as [-> | ->]; reflexivity.
Qed.

Lemma stats_pages_kind {A} endpoint chunk cursor (logs : list A) rs :
  endpoint = "/stats"%string \/ endpoint = "/stats/advanced"%string ->
  Forall (fun e => is_stats_request e = true \/ is_get e = false)
         (did (stats_pages endpoint chunk cursor logs rs)).
Proof.
  intros Hend.
  eapply Forall_impl;
    [exact (proj1 (stats_pages_accounting endpoint chunk cursor logs rs))|].
  intros e. apply stats_event_kind, Hend.
Qed.

Lemma fetch_chunk_quiet logs chunk w :
  let o := fetch_chunk logs chunk w in
  is_raise o = false
  /\ files (world_of o) = files w
  /\ games (net (world_of o)) = games (net w)
  /\ players (net (world_of o)) = players (net w)
  /\ exists evs, trace (world_of o) = trace w ++ evs
                 /\ Forall (fun e => is_stats_request e = true \/ is_get e = false) evs.
Proof.
  cbn zeta. rewrite fetch_chunk_cases. cbn zeta.
  pose proof (stats_pages_kind "/stats" chunk None (fst logs) (stats (net w))
                (or_introl eq_refl)) as H1.
  pose proof (stats_pages_kind "/stats/advanced" chunk None (snd logs)
                (advanced (net w)) (or_intror eq_refl)) as H2.
  destruct (broke (stats_pages "/stats" chunk None (fst logs) (stats (net w)))).
  - destruct (broke (stats_pages "/stats/advanced" chunk None (snd logs)
                                 (advanced (net w))));
      cbn; repeat split;
      (eexists; split; [rewrite <- app_assoc; reflexivity|]);
      apply Forall_app; split; assumption.
  - cbn. repeat split. eexists. split; [reflexivity|assumption].
Qed.

Lemma fetch_chunks_quiet cs logs w :
  let o := fetch_chunks cs logs w in
  is_raise o = false
  /\ files (world_of o) = files w
  /\ games (net (world_of o)) = games (net w)
  /\ players (net (world_of o)) = players (net w)
  /\ exists evs, trace (world_of o) = trace w ++ evs
                 /\ Forall (fun e => is_stats_request e = true \/ is_get e = false) evs.
Proof.
  revert logs w. induction cs as [|chunk rest IH]; intros logs w.
  - cbn. repeat split. exists []. rewrite app_nil_r. split; [reflexivity|constructor].
  - cbn [fetch_chunks]. unfold run_bind.
    pose proof (fetch_chunk_quiet logs chunk w) as Hc. cbn zeta in Hc.
    destruct (fetch_chunk logs chunk w) as [logs' w1|e w1|w1]; cbn in Hc.
    + destruct Hc as (_ & Hf & Hg & Hp & evs1 & Ht & Hev1).
      destruct (IH logs' w1) as (Hr & Hf2 & Hg2 & Hp2 & evs2 & Ht2 & Hev2).
      cbn zeta. split; [exact Hr|]. rewrite Hf2, Hg2, Hp2, Ht2, Ht.
      repeat split; try assumption.
      exists (evs1 ++ evs2). rewrite app_assoc. split; [reflexivity|].
      apply Forall_app. split; assumption.
    + destruct Hc as [Hc _]. discriminate.
    + exact Hc.
Qed.

(** X6. Whether it returns or is left waiting, [fetch_game_logs] leaves the
    files, the schedule answers and the roster answers alone, and all it
    adds to the trace are requests to the two stats endpoints and pauses.
    When it returns from an empty identifier list, the two lists are empty
    and not a single request was made. *)
Theorem fetch_only_reads_stats (player_ids : list Z) (w : world) :
  let o := fetch_game_logs player_ids w in
  files (world_of o) = files w
  /\ games (net (world_of o)) = games (net w)
  /\ players (net (world_of o)) = players (net w)
  /\ (exists evs, trace (world_of o) = trace w ++ evs
                  /\ Forall (fun e => is_stats_request e = true \/ is_get e = false) evs)
  /\ (forall logs w', fetch_game_logs [] w = Returns logs w' ->
        logs = ([], []) /\ w' = w).
Proof.
  cbn zeta. unfold fetch_game_logs.
  destruct (fetch_chunks_quiet (chunks 50 player_ids) ([], []) w)
    as (_ & Hf & Hg & Hp & Ht).
  split; [exact Hf|]. split; [exact Hg|]. split; [exact Hp|]. split; [exact Ht|].
  intros logs w' Hret. cbn in Hret. injection Hret as <- <-. split; reflexivity.
Qed.

Lemma fetch_chunks_Returns cs logs w logs' w' :
  fetch_chunks cs logs w = Returns logs' w' ->
  let std := chunk_pages "/stats" cs (fst logs) (stats (net w)) in
  let adv := chunk_pages "/stats/advanced" cs (snd logs) (advanced (net w)) in
  logs' = (items std, items adv)
  /\ stats (net w') = unread std
  /\ advanced (net w') = unread adv
  /\ broke std = true
  /\ broke adv = true.
Proof.
  revert logs w. induction cs as [|chunk rest IH]; intros logs w.
  - cbn. intros [= <- <-]. destruct logs. repeat split.
  - cbn [fetch_chunks chunk_pages]. unfold run_bind.
    rewrite fetch_chunk_cases. cbn zeta.
    destruct (broke (stats_pages "/stats" chunk None (fst logs) (stats (net w))));
      [|discriminate].
    destruct (broke (stats_pages "/stats/advanced" chunk None (snd logs)
                                 (advanced (net w)))); [|discriminate].
    intros Hrest. apply IH in Hrest. cbn in Hrest. cbn. exact Hrest.
Qed.

(** X7. The two lists that [fetch_game_logs] returns are fetched
    independently of each other: the standard list is what the loops over
    the chunks collect from the answers of [/stats] alone, the advanced list
    what they collect from the answers of [/stats/advanced] alone, each in
    the order of the chunks and pages; every such loop has come to its end
    and the answers it did not consume are left for later. *)
Theorem fetch_endpoints_independent (player_ids : list Z) (w w' : world)
    (logs : list Std.t * list Adv.t) :
  fetch_game_logs player_ids w = Returns logs w' ->
  let std := chunk_pages "/stats" (chunks 50 player_ids) [] (stats (net w)) in
  let adv := chunk_pages "/stats/advanced" (chunks 50 player_ids) []
                         (advanced (net w)) in
  logs = (items std, items adv)
  /\ stats (net w') = unread std
  /\ advanced (net w') = unread adv
  /\ broke std = true
  /\ broke adv = true.
Proof. intros H. exact (fetch_chunks_Returns _ _ _ _ _ H). Qed.

Lemma fetch_endpoints_independent_witness :
  fetch_game_logs [7] sample_world
  = Returns ([sample_std (Some "35:30"%string)], [])
      {| net := set_advanced [] (set_stats [] (net sample_world));
         files := ∅;
         trace := [Get (stats_request "/stats" [7] None); Sleep 2000;
                   Get (stats_request "/stats" [7] None);
                   Get (stats_request "/stats/advanced" [7] None)] |}
  /\ ([sample_std (Some "35:30"%string)], [])
     = (items (chunk_pages "/stats" (chunks 50 [7]) [] (stats (net sample_world))),
        items (chunk_pages "/stats/advanced" (chunks 50 [7]) []
                           (advanced (net sample_world)))).
Proof.
  split; [reflexivity|].
  exact (proj1 (fetch_endpoints_independent [7] sample_world _ _ eq_refl)).
Defined.

Lemma fetch_chunks_requests cs logs w logs' w' :
  fetch_chunks cs logs w = Returns logs' w' ->
  (exists evs, trace w' = trace w ++ evs)
  /\ forall chunk, chunk ∈ cs ->
       Get (stats_request "/stats" chunk None) ∈ trace w'
       /\ Get (stats_request "/stats/advanced" chunk None) ∈ trace w'.
Proof.
  revert logs w. induction cs as [|c rest IH]; intros logs w.
  - cbn. intros [= <- <-]. split.
    + exists []. rewrite app_nil_r. reflexivity.
    + intros chunk Hin. inversion Hin.
  - cbn [fetch_chunks]. unfold run_bind. rewrite fetch_chunk_cases. cbn zeta.
    destruct (stats_pages_first "/stats" c None (fst logs) (stats (net w)))
      as [evs1 Hd1].
    destruct (stats_pages_first "/stats/advanced" c None (snd logs) (advanced (net w)))
      as [evs2 Hd2].
    destruct (broke (stats_pages "/stats" c None (fst logs) (stats (net w))));
      [|discriminate].
    destruct (broke (stats_pages "/stats/advanced" c None (snd logs)
                                 (advanced (net w)))); [|discriminate].
    intros Hrest. apply IH in Hrest as [[evs Htr] Hall]. cbn [trace] in Htr.
    split.
    + eexists. rewrite Htr, <- !app_assoc. reflexivity.
    + intros chunk Hin. apply elem_of_cons in Hin as [-> |Hin]; [|apply Hall, Hin].
      rewrite Htr, Hd1, Hd2. split.
      * apply elem_of_app. left. apply elem_of_app. left.
        apply elem_of_app. right. left.
      * apply elem_of_app. left. apply elem_of_app. right. left.
Qed.

(** X8. A failure never makes [fetch_game_logs] skip a chunk: when it
    returns, it has asked both [/stats] and [/stats/advanced] for the first
    page of every chunk, whatever became of the requests before. *)
Theorem fetch_asks_every_chunk (player_ids : list Z) (w w' : world)
    (logs : list Std.t * list Adv.t) :
  fetch_game_logs player_ids w = Returns logs w' ->
  forall chunk, chunk ∈ chunks 50 player_ids ->
    Get (stats_request "/stats" chunk None) ∈ trace w'
    /\ Get (stats_request "/stats/advanced" chunk None) ∈ trace w'.
Proof. intros H. exact (proj2 (fetch_chunks_requests _ _ _ _ _ H)). Qed.

Lemma fetch_asks_every_chunk_witness :
  Get (stats_request "/stats" [7] None)
    ∈ [Get (stats_request "/stats" [7] None); Sleep 2000;
       Get (stats_request "/stats" [7] None);
       Get (stats_request "/stats/advanced" [7] None)]
  /\ Get (stats_request "/stats/advanced" [7] None)
       ∈ [Get (stats_request "/stats" [7] None); Sleep 2000;
          Get (stats_request "/stats" [7] None);
          Get (stats_request "/stats/advanced" [7] None)].
Proof.
  exact (fetch_asks_every_chunk [7] sample_world _ _ eq_refl [7]
           (list_elem_of_here _ _)).
Defined.

(** *** Roster discovery *)

Lemma team_ids_fold gs (acc : gset Z) tid :
  tid ∈ foldl (fun team_ids g => team_ids ∪ {[home_team g]} ∪ {[visitor_team g]})
              acc gs
  <-> tid ∈ acc \/ exists g, g ∈ gs /\ (tid = home_team g \/ tid = visitor_team g).
Proof.
  revert acc. induction gs as [|g gs IH]; intros acc; cbn [foldl].
  - split; [tauto|]. intros [H|(g & Hg & _)]; [exact H|inversion Hg].
  - rewrite IH, !elem_of_union, !elem_of_singleton. split.
    + intros [[[H|H]|H]|(g' & Hg' & H)].
      * left. exact H.
      * right. exists g. split; [left|left; exact H].
      * right. exists g. split; [left|right; exact H].
      * right. exists g'. split; [right; exact Hg'|exact H].
    + intros [H|(g' & Hg' & H)]; [tauto|].
      apply elem_of_cons in Hg' as [-> |Hg'].
      * left. tauto.
      * right. exists g'. tauto.
Qed.

Lemma team_ids_elements gs tid :
  tid ∈ elements (team_ids_of gs)
  <-> exists g, g ∈ gs /\ (tid = home_team g \/ tid = visitor_team g).
Proof.
  rewrite elem_of_elements. unfold team_ids_of.
  rewrite team_ids_fold. split; [|tauto].
  intros [H|H]; [|exact H]. apply elem_of_empty in H. destruct H.
Qed.

Lemma roster_pages_items tid cursor active_ids rs :
  exists more,
    items (roster_pages tid cursor active_ids rs) = active_ids ++ more
    /\ forall x, x ∈ more ->
         exists status_code d, Reply status_code (Some d) ∈ rs /\ x ∈ data d.
Proof.
  revert cursor active_ids.
  induction rs as [|r rs IH]; intros cursor active_ids.
  - exists []. cbn. rewrite app_nil_r. split; [reflexivity|]. intros x Hx. inversion Hx.
  - destruct r as [|status_code [d|]]; cbn [roster_pages].
    + exists []. cbn. rewrite app_nil_r. split; [reflexivity|]. intros x Hx. inversion Hx.
    + destruct (cursor_truthy (next_cursor d)); cbn.
      * destruct (IH (next_cursor d) (active_ids ++ data d)) as (more & Hitems & Hfrom).
        exists (data d ++ more). rewrite Hitems, <- app_assoc. split; [reflexivity|].
        intros x Hx. apply elem_of_app in Hx as [Hx|Hx].
        -- exists status_code, d. split; [left|exact Hx].
        -- destruct (Hfrom x Hx) as (st & d' & Hin & Hd).
           exists st, d'. split; [right; exact Hin|exact Hd].
      * exists (data d). split; [reflexivity|].
        intros x Hx. exists status_code, d. split; [left|exact Hx].
    + exists []. cbn. rewrite app_nil_r. split; [reflexivity|]. intros x Hx. inversion Hx.
Qed.

Lemma roster_pages_unread tid cursor active_ids rs :
  exists used, rs = used ++ unread (roster_pages tid cursor active_ids rs).
Proof.
  revert cursor active_ids.
  induction rs as [|r rs IH]; intros cursor active_ids.
  - exists []. reflexivity.
  - destruct r as [|status_code [d|]]; cbn [roster_pages];
      try (exists [Failed]; reflexivity);
      try (exists [Reply status_code None]; reflexivity).
    destruct (cursor_truthy (next_cursor d)); cbn.
    + destruct (IH (next_cursor d) (active_ids ++ data d)) as [used Hused].
      exists (Reply status_code (Some d) :: used). cbn. congruence.
    + exists [Reply status_code (Some d)]. reflexivity.
Qed.

Lemma roster_pages_first tid cursor active_ids rs :
  exists evs,
    did (roster_pages tid cursor active_ids rs)
    = Get (players_request tid cursor) :: evs.
Proof.
  destruct rs as [|[|status_code [d|]] rs]; cbn [roster_pages];
    try (eexists; reflexivity).
  destruct (cursor_truthy (next_cursor d)); eexists; reflexivity.
Qed.

Lemma roster_teams_items team_ids active_ids rs :
  exists more,
    items (roster_teams team_ids active_ids rs) = active_ids ++ more
    /\ forall x, x ∈ more ->
         exists status_code d, Reply status_code (Some d) ∈ rs /\ x ∈ data d.
Proof.
  revert active_ids rs.
  induction team_ids as [|tid rest IH]; intros active_ids rs; cbn [roster_teams].
  - exists []. cbn. rewrite app_nil_r. split; [reflexivity|]. intros x Hx. inversion Hx.
  - destruct (roster_pages_items tid None active_ids rs) as (more1 & Hi1 & Hfrom1).
    destruct (roster_pages_unread tid None active_ids rs) as [used Hused].
    destruct (broke (roster_pages tid None active_ids rs)).
    + destruct (IH (items (roster_pages tid None active_ids rs))
                   (unread (roster_pages tid None active_ids rs)))
        as (more2 & Hi2 & Hfrom2).
      exists (more1 ++ more2). cbn. rewrite Hi2, Hi1, <- app_assoc.
      split; [reflexivity|].
      intros x Hx. apply elem_of_app in Hx as [Hx|Hx]; [apply Hfrom1, Hx|].
      destruct (Hfrom2 x Hx) as (st & d & Hin & Hd).
      exists st, d. split; [|exact Hd].
      rewrite Hused. apply elem_of_app. right. exact Hin.
    + exists more1. split; [exact Hi1|exact Hfrom1].
Qed.

Lemma roster_teams_asked team_ids active_ids rs :
  broke (roster_teams team_ids active_ids rs) = true ->
  forall tid, tid ∈ team_ids ->
    Get (players_request tid None) ∈ did (roster_teams team_ids active_ids rs).
Proof.
  revert active_ids rs.
  induction team_ids as [|t rest IH]; intros active_ids rs; cbn [roster_teams].
  - intros _ tid Hin. inversion Hin.
  - destruct (roster_pages_first t None active_ids rs) as [evs Hd].
    destruct (broke (roster_pages t None active_ids rs)) eqn:Hb.
    + cbn. intros Hbroke tid Hin. apply elem_of_cons in Hin as [-> |Hin].
      * rewrite Hd. left.
      * apply elem_of_app. right. apply IH; assumption.
    + intros Hbroke. congruence.
Qed.

Lemma rosters_Returns today w ids w' :
  get_todays_active_rosters today w = Returns ids w' ->
  (ids = [] /\ forall status_code d rest,
      games (net w) = Reply status_code (Some d) :: rest -> data d = [])
  \/ exists status_code d rest,
       games (net w) = Reply status_code (Some d) :: rest
       /\ data d <> []
       /\ let p := roster_teams (elements (team_ids_of (data d))) []
                                (players (net w)) in
          broke p = true
          /\ ids = elements (list_to_set (items p) : gset Z)
          /\ trace w' = (trace w ++ [Get (games_request today)]) ++ did p.
Proof.
  unfold get_todays_active_rosters.
  destruct (games (net w)) as [|[|status_code [d|]] rs]; try discriminate.
  - intros [= <- <-]. left. split; [reflexivity|]. discriminate.
  - destruct (data d) as [|g gs] eqn:Hdata.
    + intros [= <- <-]. left. split; [reflexivity|].
      intros st d' rest [= _ <- _]. exact Hdata.
    + unfold run_bind, resume, run_ret. cbn [net players set_games files trace].
      destruct (broke (roster_teams (elements (team_ids_of (g :: gs))) []
                                    (players (net w)))) eqn:Hb; [|discriminate].
      intros [= <- <-]. right. exists status_code, d, rs.
      split; [reflexivity|]. rewrite Hdata. split; [discriminate|].
      cbn zeta. repeat split. exact Hb.
  - intros [= <- <-]. left. split; [reflexivity|]. discriminate.
Qed.

Lemma first_page_players tid cursor :
  is_first_page (Get (players_request tid cursor)) = negb (cursor_truthy cursor).
Proof.
  destruct cursor as [c|]; [|reflexivity].
  unfold players_request, with_cursor. cbn [cursor_truthy].
  destruct (c =? 0); reflexivity.
Qed.

Lemma roster_pages_first_pages tid cursor active_ids rs :
  filter (fun e => is_first_page e = true)
         (did (roster_pages tid cursor active_ids rs))
  = if cursor_truthy cursor then [] else [Get (players_request tid cursor)].
Proof.
  revert cursor active_ids.
  assert (forall cursor,
             filter (fun e => is_first_page e = true)
                    [Get (players_request tid cursor)]
             = if cursor_truthy cursor then []
               else [Get (players_request tid cursor)]) as Hone.
  { intros cursor. rewrite filter_cons, filter_nil, first_page_players.
    destruct (cursor_truthy cursor); reflexivity. }
  induction rs as [|r rs IH]; intros cursor active_ids; [apply Hone|].
  destruct r as [|status_code [d|]]; cbn [roster_pages]; try apply Hone.
  destruct (cursor_truthy (next_cursor d)) eqn:Hnext; cbn [negb];
    [|apply Hone].
  unfold after. cbn [did app].
  rewrite filter_cons, (filter_cons _ (Sleep 100)), IH, Hnext, first_page_players.
  destruct (cursor_truthy cursor); reflexivity.
Qed.

Lemma roster_teams_first_pages team_ids active_ids rs :
  broke (roster_teams team_ids active_ids rs) = true ->
  filter (fun e => is_first_page e = true)
         (did (roster_teams team_ids active_ids rs))
  = map (fun tid => Get (players_request tid None)) team_ids.
Proof.
  revert active_ids rs.
  induction team_ids as [|tid rest IH]; intros active_ids rs; cbn [roster_teams].
  - reflexivity.
  - pose proof (roster_pages_first_pages tid None active_ids rs) as Hp.
    destruct (broke (roster_pages tid None active_ids rs)) eqn:Hbp.
    + unfold after. cbn [did broke]. intros Hb.
      rewrite filter_app, Hp, (IH _ _ Hb). reflexivity.
    + intros Hb. rewrite Hbp in Hb. discriminate Hb.
Qed.

(** X9. The roster discovery walks exactly the teams of the schedule, each
    of them once, also when a team appears in more than one game: when the
    discovery returns, the requests for a first roster page that it made
    after the schedule request are one per team, for the home and the
    visiting teams of the games and for no other team. *)
Theorem rosters_walk_schedule_teams (today : string) (w w' : world) (ids : list Z)
    (status_code : Z) (d : page fixture) (rest : list (response fixture)) :
  get_todays_active_rosters today w = Returns ids w' ->
  games (net w) = Reply status_code (Some d) :: rest ->
  exists team_ids evs,
    NoDup team_ids
    /\ (forall tid,
          tid ∈ team_ids
          <-> exists g, g ∈ data d /\ (tid = home_team g \/ tid = visitor_team g))
    /\ trace w' = trace w ++ Get (games_request today) :: evs
    /\ filter (fun e => is_first_page e = true) evs
       = map (fun tid => Get (players_request tid None)) team_ids.
Proof.
  intros H Hgames. unfold get_todays_active_rosters in H. rewrite Hgames in H.
  destruct (data d) as [|g gs] eqn:Hdata.
  - injection H as <- <-. exists [], []. cbn. split; [constructor|].
    split; [|split; reflexivity].
    intros tid. split; [inversion 1|]. intros (g & Hg & _). inversion Hg.
  - unfold run_bind, resume, run_ret in H. cbn [net players set_games files trace] in H.
    destruct (broke (roster_teams (elements (team_ids_of (g :: gs))) []
                                  (players (net w)))) eqn:Hb; [|discriminate].
    injection H as <- <-.
    exists (elements (team_ids_of (g :: gs))). eexists.
    split; [apply NoDup_elements|]. split; [intros tid; apply team_ids_elements|].
    cbn [trace]. split; [rewrite <- app_assoc; reflexivity|].
    apply roster_teams_first_pages, Hb.
Qed.

Lemma rosters_walk_schedule_teams_witness :
  exists team_ids evs w',
    get_todays_active_rosters "2024-11-02" sample_world = Returns [7] w'
    /\ NoDup team_ids
    /\ (forall tid, tid ∈ team_ids <-> tid = 1 \/ tid = 2)
    /\ trace w' = Get (games_request "2024-11-02") :: evs
    /\ filter (fun e => is_first_page e = true) evs
       = map (fun tid => Get (players_request tid None)) team_ids.
Proof.
  destruct (rosters_walk_schedule_teams "2024-11-02" sample_world _ [7] 200
              {| data := [{| home_team := 1; visitor_team := 2 |}];
                 next_cursor := None |} [] eq_refl eq_refl)
    as (team_ids & evs & Hnd & Hmem & Htr & Hfirst).
  exists team_ids, evs. eexists. split; [reflexivity|]. split; [exact Hnd|].
  split; [|split; [exact Htr|exact Hfirst]].
  intros tid. rewrite Hmem. cbn [data]. split.
  - intros (g & Hg & H). apply list_elem_of_singleton in Hg. subst g. exact H.
  - intros H. eexists. split; [apply list_elem_of_singleton; reflexivity|exact H].
Defined.

(** X10. The list that the roster discovery returns has no identifier
    twice, and every identifier in it was delivered in the data of some
    roster page. *)
Theorem rosters_unique (today : string) (w w' : world) (ids : list Z) :
  get_todays_active_rosters today w = Returns ids w' ->
  NoDup ids
  /\ forall id, id ∈ ids ->
       exists status_code d,
         Reply status_code (Some d) ∈ players (net w) /\ id ∈ data d.
Proof.
  intros H. apply rosters_Returns in H
    as [[-> _]|(st & d & rest & _ & _ & _ & -> & _)].
  - split; [constructor|]. intros id Hid. inversion Hid.
  - split; [apply NoDup_elements|].
    intros id Hid. apply elem_of_elements, elem_of_list_to_set in Hid.
    destruct (roster_teams_items (elements (team_ids_of (data d))) []
                                 (players (net w))) as (more & Hitems & Hfrom).
    rewrite Hitems in Hid. cbn in Hid. apply Hfrom, Hid.
Qed.

(** X11. A failure on the roster pages of one team does not keep the
    discovery from the other teams: when it returns, it has asked for the
    first roster page of the home team and of the visiting team of every
    game of the schedule. *)
Theorem rosters_ask_every_team (today : string) (w w' : world) (ids : list Z)
    (status_code : Z) (d : page fixture) (rest : list (response fixture)) :
  get_todays_active_rosters today w = Returns ids w' ->
  games (net w) = Reply status_code (Some d) :: rest ->
  forall g, g ∈ data d ->
    Get (players_request (home_team g) None) ∈ trace w'
    /\ Get (players_request (visitor_team g) None) ∈ trace w'.
Proof.
  intros H Hgames g Hg.
  apply rosters_Returns in H as [[_ Hnil]|(st & d' & rest' & Hg' & _ & Hb & _ & Htr)].
  - rewrite (Hnil _ _ _ Hgames) in Hg. inversion Hg.
  - rewrite Hgames in Hg'. injection Hg' as <- <- <-. cbn zeta in *.
    rewrite Htr.
    split; apply elem_of_app; right; apply (roster_teams_asked _ _ _ Hb);
      apply team_ids_elements; exists g; tauto.
Qed.

Lemma rosters_unique_witness :
  (exists w', get_todays_active_rosters "2024-11-02" sample_world = Returns [7] w')
  /\ NoDup [7].
Proof.
  split; [eexists; reflexivity|].
  exact (proj1 (rosters_unique "2024-11-02" sample_world _ [7] eq_refl)).
Defined.

Lemma rosters_ask_every_team_witness :
  exists w',
    get_todays_active_rosters "2024-11-02" sample_world = Returns [7] w'
    /\ Get (players_request 1 None) ∈ trace w'
    /\ Get (players_request 2 None) ∈ trace w'.
Proof.
  eexists. split; [reflexivity|].
  exact (rosters_ask_every_team "2024-11-02" sample_world _ [7] 200
           {| data := [{| home_team := 1; visitor_team := 2 |}]; next_cursor := None |}
           [] eq_refl eq_refl {| home_team := 1; visitor_team := 2 |}
           (list_elem_of_here _ _)).
Defined.

Lemma rosters_no_raise today w :
  is_raise (get_todays_active_rosters today w) = false.
Proof.
  unfold get_todays_active_rosters.
  destruct (games (net w)) as [|[|status_code [d|]] rs]; try reflexivity.
  destruct (data d) as [|g gs]; [reflexivity|].
  unfold run_bind, resume, run_ret.
  destruct (broke _); reflexivity.
Qed.

Lemma roster_pages_events tid cursor active_ids rs :
  Forall (roster_event tid) (did (roster_pages tid cursor active_ids rs)).
Proof.
  revert cursor active_ids.
  assert (forall cursor, roster_event tid (Get (players_request tid cursor))) as Hget
    by (intros; left; eexists; reflexivity).
  induction rs as [|r rs IH]; intros cursor active_ids.
  - cbn. constructor; [apply Hget|constructor].
  - destruct r as [|status_code [d|]]; cbn [roster_pages];
      try (cbn; constructor; [apply Hget|constructor]).
    destruct (cursor_truthy (next_cursor d)); cbn.
    + constructor; [apply Hget|]. constructor; [right; reflexivity|apply IH].
    + constructor; [apply Hget|constructor].
Qed.

(** X13. The roster loop of a team has no retry: a request that fails, or a
    reply of any status whose body cannot be decoded, ends it at once with
    the identifiers it had; all it ever does is ask for roster pages of its
    own team and pause for 100 ms, and the identifiers it was given are kept
    in front of those it adds. *)
Theorem roster_loop_no_retry (tid : Z) (cursor : option Z) (active_ids : list Z)
    (rs : list (response Z)) :
  Forall (roster_event tid) (did (roster_pages tid cursor active_ids rs))
  /\ (exists more,
         items (roster_pages tid cursor active_ids rs) = active_ids ++ more)
  /\ (forall r, r = Failed \/ (exists status_code, r = Reply status_code None) ->
        roster_pages tid cursor active_ids (r :: rs)
        = {| items := active_ids;
             did := [Get (players_request tid cursor)];
             unread := rs;
             broke := true |}).
Proof.
  split; [apply roster_pages_events|]. split.
  - destruct (roster_pages_items tid cursor active_ids rs) as (more & H & _).
    exists more. exact H.
  - intros r [-> |[status_code ->]]; reflexivity.
Qed.

(** *** The export *)

(** X14. A successful export changes one file only, the output file, and
    what it writes there does not depend on what the files held before: the
    file is replaced, never appended to. *)
Theorem export_overwrites (std_logs : list Std.t) (adv_logs : list Adv.t)
    (fs fs' : gmap string csv_file) :
  merge_and_export std_logs adv_logs fs = inr fs' ->
  (forall name, name <> OUTPUT_FILE -> fs' !! name = fs !! name)
  /\ exists f,
       fs' !! OUTPUT_FILE = Some f
       /\ forall fs2,
            merge_and_export std_logs adv_logs fs2 = inr (<[OUTPUT_FILE := f]> fs2).
Proof.
  intros H. pose proof H as H'. apply merge_and_export_inr in H as [Hne ->].
  split.
  - intros name Hname. apply lookup_insert_ne. congruence.
  - eexists. split; [apply lookup_insert_eq|].
    intros fs2. unfold merge_and_export.
    destruct (collect_rows (build_adv_map adv_logs) std_logs) as [|r rows];
      [congruence|]. reflexivity.
Qed.

Lemma export_overwrites_witness :
  (<[OUTPUT_FILE := {| header := []; body := [] |}]>
     (<["other.csv"%string := {| header := []; body := [] |}]> ∅)
   : gmap string csv_file) !! "other.csv"%string
  = Some {| header := []; body := [] |}
  /\ exists f,
       f = {| header := row_columns; body := [sample_row] |}
       /\ merge_and_export [sample_std (Some "35:30"%string)] []
            (<[OUTPUT_FILE := {| header := []; body := [] |}]>
               (<["other.csv"%string := {| header := []; body := [] |}]> ∅))
          = inr (<[OUTPUT_FILE := f]>
                   (<[OUTPUT_FILE := {| header := []; body := [] |}]>
                      (<["other.csv"%string := {| header := []; body := [] |}]> ∅))).
Proof.
  split; [reflexivity|].
  destruct (export_overwrites [sample_std (Some "35:30"%string)] [] ∅
              (<[OUTPUT_FILE := {| header := row_columns; body := [sample_row] |}]> ∅)
              eq_refl) as (_ & f & Hf & Hall).
  exists f. split; [|apply Hall].
  rewrite lookup_insert_eq in Hf. injection Hf as <-. reflexivity.
Defined.

Lemma collect_rows_length adv_map std_logs :
  length (collect_rows adv_map std_logs)
  = length (filter (fun s => is_dnp (Std.min s) = false) std_logs).
Proof.
  unfold collect_rows. induction std_logs as [|s l IH]; [reflexivity|].
  cbn [omap list_omap]. rewrite filter_cons.
  destruct (make_row adv_map s) as [row|] eqn:Hmk.
  - assert (is_dnp (Std.min s) = false) as Hplay.
    { destruct (is_dnp (Std.min s)) eqn:Hd; [|reflexivity].
      apply (proj2 (make_row_None adv_map s)) in Hd. congruence. }
    rewrite decide_True by exact Hplay. cbn. f_equal. exact IH.
  - apply make_row_None in Hmk. rewrite decide_False by congruence. exact IH.
Qed.

(** X15. The written file has one row for every standard line whose
    minutes are not a did-not-play sentinel, no more and no fewer: lines of
    the same player and game are not merged, and a line is not dropped for
    lack of an advanced line. *)
Theorem export_row_count (std_logs : list Std.t) (adv_logs : list Adv.t)
    (fs fs' : gmap string csv_file) (f : csv_file) :
  merge_and_export std_logs adv_logs fs = inr fs' ->
  fs' !! OUTPUT_FILE = Some f ->
  length (body f)
  = length (filter (fun s => is_dnp (Std.min s) = false) std_logs).
Proof.
  intros H Hf. rewrite (written_rows _ _ _ _ _ H Hf).
  rewrite (Permutation_length (sort_rows_perm _)). apply collect_rows_length.
Qed.

Lemma export_row_count_witness :
  length (sort_rows (collect_rows ∅ (sample_std (Some "0"%string) :: sample_logs)))
  = 3%nat.
Proof.
  exact (export_row_count (sample_std (Some "0"%string) :: sample_logs) [] ∅
           (<[OUTPUT_FILE :=
                {| header := row_columns;
                   body := sort_rows (collect_rows
                                        ∅ (sample_std (Some "0"%string) :: sample_logs)) |}]> ∅)
           {| header := row_columns;
              body := sort_rows (collect_rows
                                   ∅ (sample_std (Some "0"%string) :: sample_logs)) |}
           eq_refl (lookup_insert_eq _ _ _)).
Defined.

(** X16. A row is marked "Home" exactly when the team of the line is the
    home team of the game, and "Away" otherwise; the opponent is then the
    visiting team, and in every other case the home team, also for a line
    whose team is neither of the two. *)
Theorem home_or_away (adv_map : gmap (Z * Z) Adv.t) (s : Std.t) (row : Row.t) :
  make_row adv_map s = Some row ->
  let team := Team.id (Std.team s) in
  let home := Game.home_team_id (Std.game s) in
  let visitor := Game.visitor_team_id (Std.game s) in
  (team = home -> Row.Loc row = "Home"%string /\ Row.Opp_ID row = visitor)
  /\ (team <> home -> Row.Loc row = "Away"%string /\ Row.Opp_ID row = home)
  /\ (Row.Loc row = "Home"%string <-> team = home)
  /\ Row.Team row = Team.abbreviation (Std.team s).
Proof.
  open_row s. cbn.
  destruct (Z.eqb_spec (Team.id (Std.team s)) (Game.home_team_id (Std.game s)))
    as [Heq|Hne].
  - repeat split; intros; try reflexivity; try congruence.
  - repeat split; intros; try reflexivity; try congruence; try discriminate.
Qed.

Lemma home_or_away_witness :
  (exists row, make_row ∅ (sample_std_for 3 1 2) = Some row
               /\ Row.Loc row = "Away"%string /\ Row.Opp_ID row = 1)
  /\ (exists row, make_row ∅ (sample_std_for 1 1 2) = Some row
                  /\ Row.Loc row = "Home"%string /\ Row.Opp_ID row = 2).
Proof.
  split; eexists; (split; [reflexivity|]).
  - refine (proj1 (proj2 (home_or_away ∅ (sample_std_for 3 1 2) _ eq_refl)) _).
    discriminate.
  - exact (proj1 (home_or_away ∅ (sample_std_for 1 1 2) _ eq_refl) eq_refl).
Defined.

(** X17. The Season is decided on the whole date string, the Date on its
    first ten characters: a game whose date is "2024-09-01" followed by
    anything more, such as a time of day, is given Date "2024-09-01" and
    Season 2025, while the bare date "2024-09-01" is given Season 2024. *)
Theorem season_reads_whole_date (adv_map : gmap (Z * Z) Adv.t) (s : Std.t)
    (row : Row.t) (c : ascii) (more : string) :
  make_row adv_map s = Some row ->
  Game.date (Std.game s) = ("2024-09-01" +:+ String c more)%string ->
  Row.Date row = "2024-09-01"%string /\ Row.Season row = 2025.
Proof.
  open_row s. intros Hdate. cbn. rewrite Hdate. split; reflexivity.
Qed.

Lemma season_reads_whole_date_witness :
  exists row,
    make_row ∅ (sample_std_on "2024-09-01T00:00:00.000Z" 10) = Some row
    /\ Row.Date row = "2024-09-01"%string /\ Row.Season row = 2025.
Proof.
  eexists. split; [reflexivity|].
  exact (season_reads_whole_date ∅ (sample_std_on "2024-09-01T00:00:00.000Z" 10) _
           "T"%char "00:00:00.000Z"%string eq_refl eq_refl).
Defined.

Lemma sort_rows_sorted_id l :
  StronglySorted ordered_before l -> sort_rows l = l.
Proof.
  induction 1 as [|x l Hl IH Hx]; [reflexivity|].
  cbn [sort_rows foldr]. fold (sort_rows l). rewrite IH.
  destruct l as [|y l']; [reflexivity|].
  cbn [insert_row]. inversion Hx as [|? ? Hxy _]; subst.
  apply row_le_spec in Hxy. rewrite Hxy. reflexivity.
Qed.

(** X18. Rows that already stand in the order of the output are left as
    they are by the sort, so sorting twice is the same as sorting once. *)
Theorem sort_settles (l : list Row.t) :
  (StronglySorted ordered_before l -> sort_rows l = l)
  /\ sort_rows (sort_rows l) = sort_rows l.
Proof.
  split; [apply sort_rows_sorted_id|].
  apply sort_rows_sorted_id, sort_rows_sorted.
Qed.

Lemma unique_key_lookup (l : list Adv.t) a :
  NoDup (map adv_key l) -> a ∈ l -> build_adv_map l !! adv_key a = Some a.
Proof.
  intros Hnd Ha.
  destruct (build_adv_map l !! adv_key a) as [b|] eqn:Hb.
  - apply build_adv_map_Some in Hb as [Hbl Hkey]. f_equal.
    clear -Hnd Ha Hbl Hkey. induction l as [|x l IH]; [inversion Ha|].
    cbn in Hnd. apply NoDup_cons in Hnd as [Hx Hnd].
    apply elem_of_cons in Ha as [-> |Ha], Hbl as [-> |Hbl];
      [reflexivity| | |apply IH; assumption].
    + exfalso. apply Hx. rewrite <- Hkey. apply list_elem_of_fmap_2. exact Hbl.
    + exfalso. apply Hx. rewrite Hkey. apply list_elem_of_fmap_2. exact Ha.
  - exfalso. exact (proj1 (build_adv_map_None l (adv_key a)) Hb a Ha eq_refl).
Qed.

Lemma unique_keys_map (l1 l2 : list Adv.t) :
  NoDup (map adv_key l1) -> l1 ≡ₚ l2 -> build_adv_map l1 = build_adv_map l2.
Proof.
  intros Hnd Hperm.
  assert (NoDup (map adv_key l2)) as Hnd2 by (rewrite <- Hperm; exact Hnd).
  apply map_eq. intros k.
  destruct (build_adv_map l1 !! k) as [a|] eqn:H1.
  - apply build_adv_map_Some in H1 as [Ha <-]. symmetry.
    apply unique_key_lookup; [exact Hnd2|]. rewrite <- Hperm. exact Ha.
  - symmetry. apply build_adv_map_None. intros a Ha.
    apply (proj1 (build_adv_map_None l1 k) H1). rewrite Hperm. exact Ha.
Qed.

(** X19. When no two advanced lines have the same (player id, game id), the
    order of the advanced list does not matter: any rearrangement of it
    gives the same map and so the same export. *)
Theorem advanced_order_irrelevant (std_logs : list Std.t)
    (adv_logs adv_logs' : list Adv.t) (fs : gmap string csv_file) :
  NoDup (map adv_key adv_logs) ->
  adv_logs ≡ₚ adv_logs' ->
  build_adv_map adv_logs = build_adv_map adv_logs'
  /\ merge_and_export std_logs adv_logs fs = merge_and_export std_logs adv_logs' fs.
Proof.
  intros Hnd Hperm. pose proof (unique_keys_map _ _ Hnd Hperm) as Hmap.
  split; [exact Hmap|]. unfold merge_and_export. rewrite Hmap. reflexivity.
Qed.

Lemma advanced_order_irrelevant_witness :
  build_adv_map [sample_adv 7 100 (Py.Int 1); sample_adv 8 100 (Py.Int 0)]
  = build_adv_map [sample_adv 8 100 (Py.Int 0); sample_adv 7 100 (Py.Int 1)].
Proof.
  refine (proj1 (advanced_order_irrelevant [] _ _ ∅ _ (Permutation_swap _ _ _))).
  apply NoDup_cons. split; [|apply NoDup_singleton].
  intros Hin. apply list_elem_of_singleton in Hin. discriminate Hin.
Defined.

(** X20. A matching advanced line whose usage percentage is absent, null,
    the int 0 or a float zero of either sign gives Usage the int 0, the
    value of a line without any advanced line; every other usage [u] gives
    [round(u * 100, 1)]. *)
Theorem usage_of_zero (adv_logs : list Adv.t) (s : Std.t) (row : Row.t) (a : Adv.t) :
  make_row (build_adv_map adv_logs) s = Some row ->
  build_adv_map adv_logs !! std_key s = Some a ->
  (Adv.usage_percentage a = Absent \/ Adv.usage_percentage a = Null
   \/ Adv.usage_percentage a = Present (Py.Int 0)
   \/ (exists sign, Adv.usage_percentage a = Present (Py.Float (S754_zero sign))) ->
   Row.Usage row = Py.Int 0)
  /\ (forall u, Adv.usage_percentage a = Present u -> Py.num_truthy u = true ->
        Row.Usage row = Py.round (Py.num_mul_int u 100) 1).
Proof.
  intros Hmk Ha. apply make_row_adv in Hmk as [HU _]. cbn zeta in HU.
  rewrite Ha in HU. cbn [adv_get] in HU. rewrite HU. split.
  - intros [-> |[-> |[-> |[sign ->]]]]; reflexivity.
  - intros u -> Hu. cbn [get num_or]. rewrite Hu. reflexivity.
Qed.

Lemma usage_of_zero_witness :
  exists row,
    make_row (build_adv_map [sample_adv 7 100 (Py.Float (S754_zero true))])
             (sample_std (Some "35:30"%string)) = Some row
    /\ Row.Usage row = Py.Int 0.
Proof.
  eexists. split; [reflexivity|].
  refine (proj1 (usage_of_zero [sample_adv 7 100 (Py.Float (S754_zero true))]
                   (sample_std (Some "35:30"%string)) _
                   (sample_adv 7 100 (Py.Float (S754_zero true))) eq_refl eq_refl) _).
  right. right. right. exists true. reflexivity.
Defined.

(** *** The pipeline *)

Lemma merge_and_export_cases std_logs adv_logs fs :
  merge_and_export std_logs adv_logs fs = inl (KeyError "Date")
  \/ exists f, merge_and_export std_logs adv_logs fs = inr (<[OUTPUT_FILE := f]> fs).
Proof.
  unfold merge_and_export.
  destruct (collect_rows (build_adv_map adv_logs) std_logs) as [|r rows].
  - left. reflexivity.
  - right. eexists. reflexivity.
Qed.

Lemma rosters_world today w :
  let o := get_todays_active_rosters today w in
  files (world_of o) = files w
  /\ exists evs, trace (world_of o) = trace w ++ evs.
Proof.
  cbn zeta. unfold get_todays_active_rosters.
  destruct (games (net w)) as [|[|status_code [d|]] rs];
    try (cbn; split; [reflexivity|eexists; reflexivity]).
  destruct (data d) as [|g gs]; [cbn; split; [reflexivity|eexists; reflexivity]|].
  unfold run_bind, resume, run_ret.
  destruct (broke _); cbn; (split; [reflexivity|]);
    eexists; rewrite <- app_assoc; reflexivity.
Qed.

Lemma main_cases today w :
  let o := main today w in
  (exists evs, trace (world_of o) = trace w ++ evs)
  /\ (files (world_of o) = files w
      \/ exists f w',
           o = Returns tt w' /\ files w' = <[OUTPUT_FILE := f]> (files w)).
Proof.
  cbn zeta. unfold main, run_bind.
  destruct (rosters_world today w) as [Hf1 [evs1 Ht1]].
  pose proof (rosters_no_raise today w) as Hr1.
  destruct (get_todays_active_rosters today w) as [ids w1|e w1|w1];
    cbn in Hf1, Ht1, Hr1; [|discriminate|].
  - destruct ids as [|id ids].
    + cbn. split; [eexists; exact Ht1|]. left. exact Hf1.
    + destruct (fetch_chunks_quiet (chunks 50 (id :: ids)) ([], []) w1)
        as (Hr2 & Hf2 & _ & _ & evs2 & Ht2 & _).
      fold (fetch_game_logs (id :: ids)) in Hr2, Hf2, Ht2.
      destruct (fetch_game_logs (id :: ids) w1) as [logs w2|e w2|w2];
        cbn in Hr2, Hf2, Ht2; [|discriminate|].
      * unfold run_merge_and_export.
        destruct (merge_and_export_cases (fst logs) (snd logs) (files w2))
          as [Hm|[f Hm]]; rewrite Hm; cbn.
        -- split; [eexists; rewrite Ht2, Ht1, <- app_assoc; reflexivity|].
           left. congruence.
        -- split; [eexists; rewrite Ht2, Ht1, <- app_assoc; reflexivity|].
           right. exists f. eexists. split; [reflexivity|]. cbn. congruence.
      * cbn. split; [eexists; rewrite Ht2, Ht1, <- app_assoc; reflexivity|].
        left. congruence.
  - cbn. split; [eexists; exact Ht1|]. left. exact Hf1.
Qed.

(** X21. However a run of [main] ends, it has only added to the trace and
    it has changed no file other than the output file; a run that is left
    waiting for an answer has changed no file at all. *)
Theorem main_touches_one_file (today : string) (w : world) :
  let o := main today w in
  (exists evs, trace (world_of o) = trace w ++ evs)
  /\ (forall name, name <> OUTPUT_FILE ->
        files (world_of o) !! name = files w !! name)
  /\ (forall w', o = Waits w' -> files w' = files w).
Proof.
  cbn zeta. destruct (main_cases today w) as [Htr Hcases]. cbn zeta in Hcases.
  split; [exact Htr|].
  destruct Hcases as [Hf|(f & w' & Ho & Hf)].
  - split; [intros; rewrite Hf; reflexivity|].
    intros w' Ho. rewrite Ho in Hf. exact Hf.
  - rewrite Ho. cbn. split.
    + intros name Hname. rewrite Hf. apply lookup_insert_ne. congruence.
    + discriminate.
Qed.

(** *** Minutes, again *)

Lemma split_nonempty sep s : Py.split sep s <> [].
Proof.
  destruct s as [|c r]; cbn; [discriminate|].
  destruct (Ascii.eqb c sep); [discriminate|].
  destruct (Py.split sep r); discriminate.
Qed.

Lemma contains_split sep s :
  Py.contains sep s = true ->
  exists s0 s1 rest, Py.split sep s = s0 :: s1 :: rest.
Proof.
  unfold Py.contains. induction s as [|c r IH]; cbn; [discriminate|].
  rewrite (Ascii.eqb_sym sep c).
  destruct (Ascii.eqb c sep); cbn.
  - intros _. pose proof (split_nonempty sep r) as Hne.
    destruct (Py.split sep r) as [|s1 rest]; [congruence|].
    eexists _, _, _. reflexivity.
  - intros H. destruct (IH H) as (s0 & s1 & rest & ->).
    eexists _, _, _. reflexivity.
Qed.

Lemma int_raises s e : Py.int s = inl e -> e = ValueError.
Proof.
  unfold Py.int.
  destruct (Py.split_sign _) as [neg body].
  destruct (Py.drop_underscores false false body) as [[|d ds]|];
    try (intros [= <-]; reflexivity).
  destruct (forallb Py.is_digit (d :: ds)); [|intros [= <-]; reflexivity].
  destruct (_ <? _)%nat; [intros [= <-]; reflexivity|discriminate].
Qed.

Lemma float_raises s e : Py.float s = inl e -> e = ValueError.
Proof.
  unfold Py.float.
  destruct (Py.drop_underscores _ _ _) as [cs|]; [|intros [= <-]; reflexivity].
  destruct (Py.split_sign cs) as [neg body].
  destruct (_ || _); [discriminate|].
  destruct (String.eqb _ _); [discriminate|].
  destruct (Py.parse_decimal body) as [[m k]|]; [discriminate|].
  intros [= <-]. reflexivity.
Qed.

Lemma int_truediv_raises b e : Py.int_truediv b 60 = inl e -> e = OverflowError.
Proof.
  unfold Py.int_truediv. destruct b as [|p|p]; [discriminate| |];
    destruct (Py.nearest_ratio _ p 60); try discriminate;
    intros [= <-]; reflexivity.
Qed.

Lemma int_add_float_raises a q e :
  Py.int_add_float a q = inl e -> e = OverflowError.
Proof.
  unfold Py.int_add_float, Py.float_of_int.
  destruct (Py.nearest_int a); try discriminate. intros [= <-]. reflexivity.
Qed.

(** X22. The bare [except] around the parse of the minutes only ever
    catches a ValueError (a piece that is not an int, a string that is not
    a float) or an OverflowError (an int beyond the floats): the second
    piece of the split always exists when the string holds a colon, so no
    IndexError can arise, and the division is by 60. *)
Theorem parse_swallows (m : string) (e : exn) :
  parse_min_try m = inl e -> e = ValueError \/ e = OverflowError.
Proof.
  unfold parse_min_try.
  destruct (Py.contains ":" m) eqn:Hc.
  - destruct (contains_split _ _ Hc) as (s0 & s1 & rest & ->).
    cbn [Py.item lookup list_lookup bind ret].
    destruct (Py.int s0) as [e0|a] eqn:Ha; cbn [bind].
    + intros [= <-]. left. exact (int_raises _ _ Ha).
    + destruct (Py.int s1) as [e1|b] eqn:Hb; cbn [bind].
      * intros [= <-]. left. exact (int_raises _ _ Hb).
      * destruct (Py.int_truediv b 60) as [e2|q] eqn:Hq; cbn [bind].
        -- intros [= <-]. right. exact (int_truediv_raises _ _ Hq).
        -- intros H. right. exact (int_add_float_raises _ _ _ H).
  - intros H. left. exact (float_raises _ _ H).
Qed.

Lemma parse_swallows_witness :
  parse_min_try "35:xx" = inl ValueError
  /\ (ValueError = ValueError \/ ValueError = OverflowError).
Proof.
  split; [reflexivity|].
  exact (parse_swallows "35:xx" ValueError eq_refl).
Defined.

Lemma digit_is_plain c :
  Py.is_digit c = true ->
  Py.is_space c = false
  /\ Ascii.eqb c "_" = false
  /\ Ascii.eqb c ":" = false
  /\ forall r, Py.split_sign (c :: r) = (false, c :: r).
Proof.
  destruct c as [[] [] [] [] [] [] [] []]; try discriminate;
    intros _; repeat split.
Qed.

Lemma lstrip_digits cs :
  Forall (fun c => Py.is_digit c = true) cs -> Py.lstrip cs = cs.
Proof.
  intros [|c r Hc _]; [reflexivity|]. cbn.
  rewrite (proj1 (digit_is_plain c Hc)). reflexivity.
Qed.

Lemma strip_digits cs :
  Forall (fun c => Py.is_digit c = true) cs -> Py.strip cs = cs.
Proof.
  intros H. unfold Py.strip. rewrite (lstrip_digits cs H).
  rewrite lstrip_digits by (apply Forall_rev; exact H). apply rev_involutive.
Qed.

Lemma drop_underscores_digits prev cs :
  Forall (fun c => Py.is_digit c = true) cs ->
  Py.drop_underscores prev false cs = Some cs.
Proof.
  intros H. revert prev. induction H as [|c r Hc _ IH]; intros prev; [reflexivity|].
  cbn. destruct (digit_is_plain c Hc) as (_ & -> & _). rewrite IH. reflexivity.
Qed.

Lemma length_list_ascii s : length (list_ascii_of_string s) = String.length s.
Proof. induction s as [|c s IH]; cbn; congruence. Qed.

Lemma digit_string_chars s :
  digit_string s ->
  exists c r, list_ascii_of_string s = c :: r
              /\ Forall (fun c => Py.is_digit c = true) (c :: r)
              /\ (length (c :: r) <= Py.int_max_str_digits)%nat.
Proof.
  intros (Hne & Hall & Hlen).
  destruct s as [|c s]; [congruence|]. exists c, (list_ascii_of_string s).
  split; [reflexivity|]. split.
  - apply Forall_forall. intros x Hx. apply list_elem_of_In in Hx.
    exact (proj1 (forallb_forall _ _) Hall x Hx).
  - rewrite <- length_list_ascii in Hlen. exact Hlen.
Qed.

Lemma int_of_digits s :
  digit_string s -> Py.int s = inr (Py.digits_val (list_ascii_of_string s)).
Proof.
  intros Hs. pose proof Hs as (_ & Hall & _).
  destruct (digit_string_chars s Hs) as (c & r & Hcs & HF & Hlen).
  unfold Py.int. rewrite Hcs in *. rewrite (strip_digits _ HF).
  rewrite (proj2 (proj2 (proj2 (digit_is_plain c (Forall_inv HF))))).
  rewrite (drop_underscores_digits _ _ HF), Hall.
  destruct (Nat.ltb_spec Py.int_max_str_digits (length (c :: r))); [lia|].
  reflexivity.
Qed.

Lemma digit_string_no_colon s :
  digit_string s -> Py.split ":" s = [s].
Proof.
  intros (_ & Hall & _). clear -Hall.
  induction s as [|c s IH]; [reflexivity|].
  cbn in Hall. apply andb_prop in Hall as [Hc Hall]. cbn.
  destruct (digit_is_plain c Hc) as (_ & _ & -> & _). rewrite (IH Hall).
  reflexivity.
Qed.

Lemma split_minutes_seconds M SS :
  digit_string M -> digit_string SS ->
  Py.contains ":" (M +:+ String ":" SS) = true
  /\ Py.split ":" (M +:+ String ":" SS) = [M; SS].
Proof.
  intros (_ & Hall & _) HSS. clear -Hall HSS.
  induction M as [|c M IH].
  - split; [reflexivity|].
    change (Py.split ":" ("" +:+ String ":" SS))
      with (EmptyString :: Py.split ":" SS).
    rewrite (digit_string_no_colon SS HSS). reflexivity.
  - cbn in Hall. apply andb_prop in Hall as [Hc Hall].
    destruct (IH Hall) as [Hcont Hsplit]. unfold Py.contains in *.
    destruct (digit_is_plain c Hc) as (_ & _ & Hcolon & _).
    change (String c M +:+ String ":" SS) with (String c (M +:+ String ":" SS)).
    split.
    + cbn [list_ascii_of_string existsb]. rewrite Hcont. apply orb_true_r.
    + cbn [Py.split]. rewrite Hcolon, Hsplit. reflexivity.
Qed.

(** X23. For a minutes string "M:SS" whose two parts are runs of decimal
    digits (non-empty, at most 4300 digits each) the parse never meets a
    ValueError: the value is the number M plus the number SS divided by 60,
    computed in floating point, and only an int too large for a float makes
    it 0.0. *)
Theorem minutes_of_digit_strings (M SS : string) :
  digit_string M -> digit_string SS ->
  let minutes := Py.digits_val (list_ascii_of_string M) in
  let seconds := Py.digits_val (list_ascii_of_string SS) in
  parse_min_try (M +:+ String ":" SS)
  = bind (Py.int_truediv seconds 60) (fun q => Py.int_add_float minutes q)
  /\ forall q x,
       Py.int_truediv seconds 60 = inr q -> Py.float_of_int minutes = inr x ->
       parse_min (M +:+ String ":" SS) = Py.fadd x q.
Proof.
  intros HM HSS minutes seconds.
  destruct (split_minutes_seconds M SS HM HSS) as [Hc Hs].
  assert (parse_min_try (M +:+ String ":" SS)
          = bind (Py.int_truediv seconds 60)
                 (fun q => Py.int_add_float minutes q)) as Htry.
  { unfold parse_min_try. rewrite Hc, Hs. cbn [Py.item lookup list_lookup bind ret].
    rewrite (int_of_digits M HM). cbn [bind]. rewrite (int_of_digits SS HSS).
    reflexivity. }
  split; [exact Htry|].
  intros q x Hq Hx. unfold parse_min. rewrite Htry, Hq. cbn [bind].
  unfold Py.int_add_float. rewrite Hx. reflexivity.
Qed.

Lemma minutes_of_digit_strings_witness :
  digit_string "07" /\ digit_string "15"
  /\ parse_min "07:15" = S754_finite false 8162774324609024 (-50).
Proof.
  assert (digit_string "07") as HM
    by (split; [discriminate|split; [reflexivity|]];
        unfold Py.int_max_str_digits; cbn; lia).
  assert (digit_string "15") as HSS
    by (split; [discriminate|split; [reflexivity|]];
        unfold Py.int_max_str_digits; cbn; lia).
  split; [exact HM|]. split; [exact HSS|].
  exact (proj2 (minutes_of_digit_strings "07" "15" HM HSS) _ _ eq_refl eq_refl).
Defined.
